(** * NSE institutional accumulation analyzer: the analyze route

    A shallow embedding of [src/app/api/analyze/route.ts] and the proofs of
    its specified properties.

    Conventions of the embedding.
    - A JavaScript string is a list of characters ([list ascii]); literals
      are written [js "..."].  Case mapping and white space are those of
      the ASCII range.
    - A JavaScript [number] has two models.  The first part of the file
      computes with exact rationals ([Qc]), [parseFloat] returning [None]
      where the result is not a finite number: it carries the properties
      that do not depend on rounding (control flow, the event stream,
      grouping, counting).  The module [Runtime] embeds the numeric code,
      the row rule of the fetcher and the aggregator, over IEEE 754
      binary64 (the primitive type [float]) with its rounding, its
      infinities and [NaN]; what is stated of the numbers themselves is
      stated there.
    - A [Date] is its local calendar day, counted in days from 1970-01-01;
      [Runtime.Instant] adds the UTC day that [toISOString] reads.
    - Effects ([controller.enqueue], [console.log], exceptions) are
      threaded explicitly: a computation takes the state (the stream
      controller and the console) and returns the new state together with a
      value or a thrown exception.  What the program cannot decide (the
      clock, the answers of the archive, the engine's limit on the number
      of arguments of a call) is read from a [World].  The consumer of the
      stream does not cancel it: only the program closes the stream. *)

From Stdlib Require Import Ascii QArith Qcanon Permutation.
From Stdlib Require String.
From Stdlib Require Import Floats.
From stdpp Require Import base decidable option list sets sorting numbers strings
  pretty.
From Equations Require Import Equations.

Local Open Scope Z_scope.
Local Open Scope list_scope.

(** ** Strings *)

Module Str.

Definition js (s : string) : list ascii := String.list_ascii_of_string s.

Definition to_string (l : list ascii) : string := String.string_of_list_ascii l.

(** The double quote character. *)
Definition quote : ascii := "034"%char.

(** A string literal between double quotes. *)
Definition quoted (s : string) : list ascii := quote :: js s ++ [quote].

(** [String.prototype.toUpperCase], on the ASCII letters. *)
Definition upper_char (c : ascii) : ascii :=
  let n := N_of_ascii c in
  if ((97 <=? n) && (n <=? 122))%N then ascii_of_N (n - 32) else c.

Definition toUpperCase (s : list ascii) : list ascii := map upper_char s.

Fixpoint startsWith (s k : list ascii) {struct k} : bool :=
  match k, s with
  | [], _ => true
  | _ :: _, [] => false
  | c :: k', d :: s' => if decide (c = d) then startsWith s' k' else false
  end.

(** [s.includes(k)]: [k] occurs in [s] as a contiguous block. *)
Fixpoint includes (s k : list ascii) : bool :=
  startsWith s k ||
  match s with
  | [] => false
  | _ :: s' => includes s' k
  end.

(** [k] is a substring of [s]. *)
Definition substring (k s : list ascii) : Prop :=
  exists pre post, s = pre ++ k ++ post.

(** White space as [String.prototype.trim] sees it (ASCII range). *)
Definition is_space (c : ascii) : bool := Ascii.is_space c.

Fixpoint trimStart (s : list ascii) : list ascii :=
  match s with
  | c :: s' => if is_space c then trimStart s' else s
  | [] => []
  end.

Definition trimEnd (s : list ascii) : list ascii :=
  reverse (trimStart (reverse s)).

Definition trim (s : list ascii) : list ascii := trimEnd (trimStart s).

(** [s.split(sep)] for a one-character separator: the pieces between the
    separators, an empty string giving one empty piece. *)
Fixpoint split (sep : ascii) (s : list ascii) : list (list ascii) :=
  match s with
  | [] => [[]]
  | c :: s' =>
      if decide (c = sep) then [] :: split sep s'
      else match split sep s' with
           | piece :: pieces => (c :: piece) :: pieces
           | [] => [[c]]
           end
  end.

(** [s.replace(/c/g, '')]: every occurrence of the character removed. *)
Definition remove_char (c : ascii) (s : list ascii) : list ascii :=
  filter (fun d => d <> c) s.

(** [String(n).padStart(2, '0')] for an integer [n]. *)
Definition pad2 (n : Z) : list ascii :=
  let digits := js (pretty n) in
  replicate (2 - length digits) "0"%char ++ digits.

(** A string is truthy when it is not empty. *)
Definition truthy (s : list ascii) : bool :=
  match s with [] => false | _ => true end.

End Str.

Import Str.

(** ** Institutional classifier *)

Definition INSTITUTIONAL_KEYWORDS : list (list ascii) :=
  map js
    [ "INSURANCE"; "MUTUAL FUND"; "LIC"; "TRUST"; "BANK"; "SECURITIES";
      "INVESTMENT"; "CAPITAL"; "FUND"; "ASSET MANAGEMENT"; "PENSION"; "PMS";
      "AIF"; "FII"; "DII"; "INSTITUTIONAL"; "FINANCIAL SERVICES"; "WEALTH";
      "HOLDINGS" ]%string.

Definition isInstitutional (clientName : list ascii) : bool :=
  let upperClient := toUpperCase clientName in
  existsb (fun keyword => includes upperClient keyword) INSTITUTIONAL_KEYWORDS.

(** ** Business-day calendar *)

(** A [Date] is the number of its local calendar day, day 0 being Thursday
    1970-01-01. *)
Abbreviation Date := Z (only parsing).

(** [date.getDay()]: 0 is Sunday, 6 is Saturday. *)
Definition getDay (date : Date) : Z := (date + 4) mod 7.

(** Year, month (1-12) and day of the month of a day number, in the
    proleptic Gregorian calendar. *)
Definition civil (date : Date) : Z * Z * Z :=
  let z := date + 719468 in
  let era := z / 146097 in
  let doe := z - era * 146097 in
  let yoe := (doe - doe / 1460 + doe / 36524 - doe / 146096) / 365 in
  let doy := doe - (365 * yoe + yoe / 4 - yoe / 100) in
  let mp := (5 * doy + 2) / 153 in
  let d := doy - (153 * mp + 2) / 5 + 1 in
  let m := if decide (mp < 10) then mp + 3 else mp - 9 in
  let y := yoe + era * 400 + (if decide (m <= 2) then 1 else 0) in
  (y, m, d).

Definition getFullYear (date : Date) : Z := (civil date).1.1.
Definition getMonth (date : Date) : Z := (civil date).1.2 - 1.
Definition getDate (date : Date) : Z := (civil date).2.

(** The number of steps of the backward walk before the next business day:
    the termination measure of the loop below counts them. *)
Definition weekend_gap (date : Date) : nat :=
  if decide (getDay date = 0) then 2%nat
  else if decide (getDay date = 6) then 1%nat else 0%nat.

(** The [while (count < n)] loop of [getLastNBusinessDays]; its state is
    [count], [currentDate] and the array [dates]. *)
Equations? business_days_loop (n count : nat) (currentDate : Date)
    (dates : list Date) : list Date
  by wf (3 * (n - count) + weekend_gap currentDate)%nat lt :=
  business_days_loop n count currentDate dates with decide (count < n)%nat => {
    | right _ := dates
    | left _ with decide (getDay currentDate <> 0 /\ getDay currentDate <> 6) => {
      | left _ :=
          business_days_loop n (count + 1) (currentDate - 1)
            (dates ++ [currentDate])
      | right _ := business_days_loop n count (currentDate - 1) dates } }.
Proof.
  all: unfold weekend_gap, getDay in *; repeat case_decide; try lia.
  all: clear business_days_loop; exfalso; Z.div_mod_to_equations; lia.
Qed.

(** [today] is the value of [new Date()]. *)
Definition getLastNBusinessDays (today : Date) (n : nat) : list Date :=
  business_days_loop n 0 today [].

Definition formatDateForNSE (date : Date) : list ascii :=
  let day := pad2 (getDate date) in
  let month := pad2 (getMonth date + 1) in
  let year := getFullYear date in
  day ++ month ++ js (pretty year).

(** [date.toLocaleDateString('en-IN')]: day/month/year without padding. *)
Definition toLocaleDateString (date : Date) : list ascii :=
  js (pretty (getDate date)) ++ js "/" ++ js (pretty (getMonth date + 1))
  ++ js "/" ++ js (pretty (getFullYear date)).

(** [date.toISOString().split('T')[0]], the server clock being UTC. *)
Definition isoDate (date : Date) : list ascii :=
  let year := js (pretty (getFullYear date)) in
  replicate (4 - length year) "0"%char ++ year ++ js "-"
  ++ pad2 (getMonth date + 1) ++ js "-" ++ pad2 (getDate date).

(** ** Row parser *)

Record csv_state := {
  result : list (list ascii);
  current : list ascii;
  inQuotes : bool
}.

(** One iteration of the [for] loop of [parseCSVLine]. *)
Definition csv_step (st : csv_state) (char : ascii) : csv_state :=
  if decide (char = quote) then
    {| result := result st; current := current st;
       inQuotes := negb (inQuotes st) |}
  else if bool_decide (char = ","%char) && negb (inQuotes st) then
    {| result := result st ++ [trim (current st)]; current := [];
       inQuotes := inQuotes st |}
  else
    {| result := result st; current := current st ++ [char];
       inQuotes := inQuotes st |}.

Definition parseCSVLine (line : list ascii) : list (list ascii) :=
  let st :=
    fold_left csv_step line
      {| result := []; current := []; inQuotes := false |} in
  result st ++ [trim (current st)].

(** ** Numbers *)

Abbreviation number := Qc (only parsing).

(** [x > 0]. *)
Definition positive_number (x : number) : bool := bool_decide (0 < x)%Qc.

Definition digit_of (c : ascii) : option Z :=
  let n := N_of_ascii c in
  if ((48 <=? n) && (n <=? 57))%N then Some (Z.of_N (n - 48)) else None.

(** The longest run of decimal digits at the head of [s]: its value on top
    of [acc], the number of digits read on top of [cnt], and the rest. *)
Fixpoint read_digits (acc : Z) (cnt : nat) (s : list ascii)
    : Z * nat * list ascii :=
  match s with
  | c :: s' =>
      match digit_of c with
      | Some d => read_digits (10 * acc + d) (S cnt) s'
      | None => (acc, cnt, s)
      end
  | [] => (acc, cnt, [])
  end.

(** An optional sign: whether it is a minus, and the rest. *)
Definition read_sign (s : list ascii) : bool * list ascii :=
  match s with
  | c :: s' =>
      if decide (c = "-"%char) then (true, s')
      else if decide (c = "+"%char) then (false, s')
      else (false, s)
  | [] => (false, [])
  end.

(** The value of an optional exponent part [e±ddd]; an [e] that no digit
    follows is not part of the number. *)
Definition read_exponent (s : list ascii) : Z :=
  match s with
  | c :: s1 =>
      if bool_decide (c = "e"%char) || bool_decide (c = "E"%char) then
        let '(neg, s2) := read_sign s1 in
        let '(v, cnt, _) := read_digits 0 0 s2 in
        if decide (cnt = 0%nat) then 0 else if neg then - v else v
      else 0
  | [] => 0
  end.

Definition pow10 (e : Z) : number :=
  if decide (0 <= e) then Qc_of_Z (10 ^ e) else (/ Qc_of_Z (10 ^ (- e)))%Qc.

(** [parseFloat]: leading white space is skipped and the longest prefix
    that is a decimal literal is read; [None] stands for [NaN] (no such
    prefix) and for the literal [Infinity], which is not a finite number. *)
Definition parseFloat (input : list ascii) : option number :=
  let '(neg, s1) := read_sign (trimStart input) in
  if startsWith s1 (js "Infinity") then None
  else
    let '(ip, icnt, s2) := read_digits 0 0 s1 in
    let '(fp, fcnt, s3) :=
      match s2 with
      | c :: s2' =>
          if decide (c = "."%char) then read_digits 0 0 s2' else (0, 0%nat, s2)
      | [] => (0, 0%nat, s2)
      end in
    if decide ((icnt + fcnt)%nat = 0%nat) then None
    else
      let mantissa :=
        (Qc_of_Z ip + Qc_of_Z fp / Qc_of_Z (10 ^ Z.of_nat fcnt))%Qc in
      let v := (mantissa * pow10 (read_exponent s3))%Qc in
      Some (if neg then (- v)%Qc else v).

(** [x / y] where the result is a finite number; a zero divisor gives
    [NaN] or an infinity in JavaScript, here [None]. *)
Definition divide (x y : number) : option number :=
  if decide (y = 0%Qc) then None else Some (x / y)%Qc.

(** ** Deals *)

Record Deal := {
  date : list ascii;
  symbol : list ascii;
  clientName : list ascii;
  dealType : list ascii;
  quantity : number;
  price : number;
  value : number
}.

(** The field [acc_symbol] is [symbol] in the source ([Deal] has a field of
    that name too); [avgPrice] is [None] where the division does not give a
    finite number. *)
Record StockAccumulation := {
  acc_symbol : list ascii;
  totalBuyQuantity : number;
  totalBuyValue : number;
  transactions : nat;
  avgPrice : option number
}.

(** ** Deal fetcher: the rows of a file *)

(** [s || d] on strings. *)
Definition or_default (s d : list ascii) : list ascii :=
  if truthy s then s else d.

(** [fields[i]?.f() || d]. *)
Definition field_or (fields : list (list ascii)) (i : nat)
    (f : list ascii -> list ascii) (d : list ascii) : list ascii :=
  match fields !! i with
  | Some s => or_default (f s) d
  | None => d
  end.

(** [x > 0] for the result of [parseFloat]: false on [NaN]. *)
Definition parsed_positive (x : option number) : bool :=
  match x with
  | Some q => positive_number q
  | None => false
  end.

(** The body of the row loop of [downloadBhavCopy]: the deal pushed for
    the line, if any. *)
Definition deal_of_line (date : Date) (line : list ascii) : option Deal :=
  let fields := parseCSVLine line in
  if decide (length fields < 8)%nat then None
  else
    let symbol := field_or fields 1 trim [] in
    let clientName := field_or fields 2 trim [] in
    let dealType := field_or fields 3 (fun s => toUpperCase (trim s)) [] in
    let quantity :=
      parseFloat (field_or fields 4 (remove_char ","%char) (js "0")) in
    let price :=
      parseFloat (field_or fields 5 (remove_char ","%char) (js "0")) in
    if truthy symbol && truthy clientName && parsed_positive quantity
       && parsed_positive price && bool_decide (dealType = js "BUY")
    then
      match quantity, price with
      | Some quantity, Some price =>
          Some {| date := isoDate date; symbol := symbol;
                  clientName := clientName; dealType := dealType;
                  quantity := quantity; price := price;
                  value := (quantity * price)%Qc |}
      | _, _ => None
      end
    else None.

(** The loop [for (let i = 1; i < lines.length; i++)]: the header is
    skipped and every accepted line pushes one deal. *)
Definition deals_of_lines (date : Date) (lines : list (list ascii))
    : list Deal :=
  fold_left
    (fun deals line =>
       match deal_of_line date line with
       | Some deal => deals ++ [deal]
       | None => deals
       end)
    (drop 1 lines) [].

(** [csvText.split('\n').filter(line => line.trim())]. *)
Definition non_blank_lines (csvText : list ascii) : list (list ascii) :=
  filter (fun line => truthy (trim line) = true) (split "010"%char csvText).

(** The part of [downloadBhavCopy] that follows [response.text()]. *)
Definition deals_of_text (date : Date) (csvText : list ascii) : list Deal :=
  let lines := non_blank_lines csvText in
  if decide (length lines < 2)%nat then [] else deals_of_lines date lines.

(** ** Aggregator *)

(** The value type of [stockMap]. *)
Record Totals := {
  sumQuantity : number;
  sumValue : number;
  count : nat
}.

(** A [Map] keeps its keys in insertion order, and setting a key that is
    present keeps its place: an association list with distinct keys. *)
Abbreviation StockMap := (list (list ascii * Totals)) (only parsing).

Fixpoint map_get (m : StockMap) (key : list ascii) : option Totals :=
  match m with
  | [] => None
  | (k, v) :: m' => if decide (k = key) then Some v else map_get m' key
  end.

Fixpoint map_set (m : StockMap) (key : list ascii) (v : Totals) : StockMap :=
  match m with
  | [] => [(key, v)]
  | (k, w) :: m' =>
      if decide (k = key) then (k, v) :: m' else (k, w) :: map_set m' key v
  end.

(** The filter of [analyzeAccumulation]. *)
Definition qualifies (deal : Deal) : bool :=
  bool_decide (dealType deal = js "BUY") && isInstitutional (clientName deal).

(** The body of the loop over [institutionalDeals]. *)
Definition accumulate (stockMap : StockMap) (deal : Deal) : StockMap :=
  let existing :=
    default {| sumQuantity := 0%Qc; sumValue := 0%Qc; count := 0 |}
      (map_get stockMap (symbol deal)) in
  map_set stockMap (symbol deal)
    {| sumQuantity := (sumQuantity existing + quantity deal)%Qc;
       sumValue := (sumValue existing + value deal)%Qc;
       count := (count existing + 1)%nat |}.

Definition to_result (entry : list ascii * Totals) : StockAccumulation :=
  let '(symbol, data) := entry in
  {| acc_symbol := symbol;
     totalBuyQuantity := sumQuantity data;
     totalBuyValue := sumValue data;
     transactions := count data;
     avgPrice := divide (sumValue data) (sumQuantity data) |}.

(** The comparator given to [sort]. *)
Definition compareFn (a b : StockAccumulation) : number :=
  (totalBuyValue b - totalBuyValue a)%Qc.

(** [Array.prototype.sort] is a stable sort; it is modelled by insertion:
    an element moves behind another one only when the comparator puts it
    strictly after. *)
Fixpoint sort_insert {A} (cmp : A -> A -> number) (x : A) (l : list A)
    : list A :=
  match l with
  | [] => [x]
  | y :: l' =>
      if bool_decide (0 < cmp x y)%Qc then y :: sort_insert cmp x l'
      else x :: l
  end.

Definition sort {A} (cmp : A -> A -> number) (l : list A) : list A :=
  foldr (sort_insert cmp) [] l.

Definition analyzeAccumulation (allDeals : list Deal)
    : list StockAccumulation :=
  let institutionalDeals := filter (fun deal => qualifies deal = true) allDeals in
  let stockMap := fold_left accumulate institutionalDeals [] in
  let results := map to_result stockMap in
  take 10 (sort compareFn results).

(** ** Event stream *)

Inductive event :=
| Progress (message : list ascii)
| Result (data : list StockAccumulation)
| Error (message : list ascii).

(** A thrown value: an [Error] object with its message, or anything else. *)
Inductive thrown :=
| ErrorObject (message : list ascii)
| OtherValue.

Inductive outcome (A : Type) :=
| Return (a : A)
| Throw (e : thrown).
Arguments Return {A} a.
Arguments Throw {A} e.

(** The stream controller: the chunks enqueued so far, one per event (the
    framing [data: <JSON>] of a chunk is not expanded), and whether the
    stream has been closed. *)
Record Controller := {
  queue : list event;
  closed : bool
}.

(** A line of the console: [console.log(message)] or
    [console.error(message, error)]. *)
Inductive log_entry :=
| Log (message : list ascii)
| LogError (message : list ascii) (error : thrown).

(** What a run acts on: the controller and the console. *)
Record State := {
  controller : Controller;
  console : list log_entry
}.

Definition M (A : Type) : Type := State -> State * outcome A.

Definition ret {A} (a : A) : M A := fun st => (st, Return a).

Definition throw {A} (e : thrown) : M A := fun st => (st, Throw e).

Definition bind {A B} (m : M A) (k : A -> M B) : M B :=
  fun st =>
    match m st with
    | (st', Return a) => k a st'
    | (st', Throw e) => (st', Throw e)
    end.

Global Instance M_ret : MRet M := @ret.
Global Instance M_bind : MBind M := fun A B k m => bind m k.

(** [try { m } catch (error) { handler }]. *)
Definition try_catch {A} (m : M A) (handler : thrown -> M A) : M A :=
  fun st =>
    match m st with
    | (st', Return a) => (st', Return a)
    | (st', Throw e) => handler e st'
    end.

(** [controller.enqueue] and [controller.close] throw a [TypeError] on a
    stream that is already closed. *)
Definition already_closed : thrown :=
  ErrorObject (js "Invalid state: Controller is already closed").

Definition enqueue (ev : event) : M unit :=
  fun st =>
    if closed (controller st) then (st, Throw already_closed)
    else
      ({| controller :=
            {| queue := queue (controller st) ++ [ev]; closed := false |};
          console := console st |}, Return tt).

Definition close : M unit :=
  fun st =>
    if closed (controller st) then (st, Throw already_closed)
    else
      ({| controller := {| queue := queue (controller st); closed := true |};
          console := console st |}, Return tt).

(** [console.log] and [console.error] add one entry to the console. *)
Definition console_write (entry : log_entry) : M unit :=
  fun st =>
    ({| controller := controller st; console := console st ++ [entry] |},
     Return tt).

Definition console_log (message : list ascii) : M unit :=
  console_write (Log message).

Definition console_error (message : list ascii) (error : thrown) : M unit :=
  console_write (LogError message error).

(** ** The outside world *)

(** A response of the archive: its [ok] flag, and the body that
    [response.text()] resolves to unless it rejects. *)
Record Response := {
  ok : bool;
  text : outcome (list ascii)
}.

Record World := {
  (** [new Date()] *)
  today : Date;
  (** [fetch(url, ...)]: a response, or a rejection (network failure) *)
  fetch : list ascii -> outcome Response;
  (** the largest number of arguments a call can take: spreading a longer
      array into [push] throws a [RangeError] *)
  max_arguments : nat
}.

Definition too_many_arguments : thrown :=
  ErrorObject (js "Maximum call stack size exceeded").

(** Lifting an outcome of the world into a computation. *)
Definition await {A} (o : outcome A) : M A := fun st => (st, o).

(** ** Deal fetcher *)

Definition archive_url (dateStr : list ascii) : list ascii :=
  js "https://nsearchives.nseindia.com/content/equities/bulk_" ++ dateStr
  ++ js ".csv".

Definition fetching_message (date : Date) : list ascii :=
  js "Fetching data for " ++ toLocaleDateString date ++ js "...".

Definition downloadBhavCopy (w : World) (date : Date) : M (list Deal) :=
  let dateStr := formatDateForNSE date in
  let url := archive_url dateStr in
  enqueue (Progress (fetching_message date)) ;;
  try_catch
    (response ← await (fetch w url);
     if negb (ok response) then
       console_log (js "No data available for " ++ toLocaleDateString date) ;;
       ret []
     else
       csvText ← await (text response);
       ret (deals_of_text date csvText))
    (fun error =>
       console_error (js "Error fetching data for " ++ dateStr ++ js ":")
         error ;;
       ret []).

(** ** Orchestrator *)

(** [allDeals.push(...deals)]. *)
Definition push_all (w : World) (allDeals deals : list Deal)
    : M (list Deal) :=
  if decide (max_arguments w < length deals)%nat then throw too_many_arguments
  else ret (allDeals ++ deals).

(** The loop [for (const date of dates)] of [POST], from the value of
    [allDeals] on. *)
Fixpoint fetch_days (w : World) (dates : list Date) (allDeals : list Deal)
    : M (list Deal) :=
  match dates with
  | [] => ret allDeals
  | date :: rest =>
      deals ← downloadBhavCopy w date;
      allDeals' ← push_all w allDeals deals;
      fetch_days w rest allDeals'
  end.

Definition analyzing_message (allDeals : list Deal) : list ascii :=
  js "Analyzing " ++ js (pretty (length allDeals))
  ++ js " transactions from institutional investors...".

(** [error instanceof Error ? error.message : 'Unknown error occurred']. *)
Definition error_message (error : thrown) : list ascii :=
  match error with
  | ErrorObject message => message
  | OtherValue => js "Unknown error occurred"
  end.

(** The [start] callback of the stream, for a window of [n] days; the
    source fixes [n] to 5, see [POST]. *)
Definition start (w : World) (n : nat) : M unit :=
  try_catch
    (let dates := getLastNBusinessDays (today w) n in
     allDeals ← fetch_days w dates [];
     enqueue (Progress (analyzing_message allDeals)) ;;
     let results := analyzeAccumulation allDeals in
     enqueue (Result results) ;;
     close)
    (fun error =>
       enqueue (Error (error_message error)) ;;
       close).

Definition new_stream : State :=
  {| controller := {| queue := []; closed := false |}; console := [] |}.


(** * Specification-side definitions

    The definitions below follow the words of the specification, not the
    code; the theorems compare the two. *)

(** ** Row parser, as specified *)

(** Position [i] of [line] is inside a quoted span when an odd number of
    quote characters precede it. *)
Definition in_quoted_span (line : list ascii) (i : nat) : bool :=
  Nat.odd (length (filter (fun c => c = quote) (take i line))).

(** A split point is a delimiter outside the quoted spans. *)
Definition is_split_point (line : list ascii) (i : nat) : bool :=
  bool_decide (line !! i = Some ","%char) && negb (in_quoted_span line i).

(** The pieces of [s] between the split points, [i] being the position of
    the head of [s] in the line. *)
Fixpoint cut_at (split_point : nat -> bool) (i : nat) (s : list ascii)
    : list (list ascii) :=
  match s with
  | [] => [[]]
  | c :: s' =>
      if split_point i then [] :: cut_at split_point (S i) s'
      else match cut_at split_point (S i) s' with
           | piece :: pieces => (c :: piece) :: pieces
           | [] => [[c]]
           end
  end.

(** Unquoting drops the quote characters; every field is trimmed after
    unquoting. *)
Definition unquote_and_trim (piece : list ascii) : list ascii :=
  trim (remove_char quote piece).

Definition parseDelimitedRow (line : list ascii) : list (list ascii) :=
  map unquote_and_trim (cut_at (is_split_point line) 0 line).

(** ** Business days, as specified *)

(** A business day is neither a Saturday nor a Sunday. *)
Definition business_day (date : Date) : Prop :=
  getDay date <> 0 /\ getDay date <> 6.

(** ** Deal fetcher, as specified *)

(** What a call of [downloadBhavCopy] returns and what it logs, read off
    the outcome of the request. *)
Definition fetched (w : World) (date : Date) : list Deal * list log_entry :=
  let failed error :=
    ([],
     [LogError (js "Error fetching data for " ++ formatDateForNSE date
                ++ js ":") error]) in
  match fetch w (archive_url (formatDateForNSE date)) with
  | Throw error => failed error
  | Return response =>
      if ok response then
        match text response with
        | Throw error => failed error
        | Return csvText => (deals_of_text date csvText, [])
        end
      else ([], [Log (js "No data available for " ++ toLocaleDateString date)])
  end.

(** ** Aggregation, as specified *)

(** The symbols in the order in which they are first met; [seen] holds the
    ones met before. *)
Fixpoint first_seen (seen symbols : list (list ascii)) : list (list ascii) :=
  match symbols with
  | [] => []
  | s :: rest =>
      if decide (s ∈ seen) then first_seen seen rest
      else s :: first_seen (s :: seen) rest
  end.

Definition sum (l : list number) : number := foldr Qcplus 0%Qc l.

(** The accumulation of a symbol over the deals: quantities and values
    summed, rows counted, and the average price their quotient. *)
Definition accumulation (deals : list Deal) (s : list ascii)
    : StockAccumulation :=
  let group := filter (fun deal => symbol deal = s) deals in
  {| acc_symbol := s;
     totalBuyQuantity := sum (map quantity group);
     totalBuyValue := sum (map value group);
     transactions := length group;
     avgPrice := divide (sum (map value group)) (sum (map quantity group)) |}.

(** The accumulations of the institutional BUY deals, one per symbol. *)
Definition accumulations (allDeals : list Deal) : list StockAccumulation :=
  let qualifying :=
    filter
      (fun deal =>
         dealType deal = js "BUY" /\ isInstitutional (clientName deal) = true)
      allDeals in
  map (accumulation qualifying) (first_seen [] (map symbol qualifying)).

(** The totals of a symbol as the loop of [analyzeAccumulation] builds
    them, deal after deal. *)
Definition totals_of (deals : list Deal) (s : list ascii) : Totals :=
  let group := filter (fun deal => symbol deal = s) deals in
  {| sumQuantity := fold_left Qcplus (map quantity group) 0%Qc;
     sumValue := fold_left Qcplus (map value group) 0%Qc;
     count := length group |}.

(** ** Example data *)

Definition example_deal (symbol clientName : string) (quantity price : Z)
    : Deal :=
  {| date := js "2026-10-30"; symbol := js symbol;
     clientName := js clientName; dealType := js "BUY";
     quantity := Qc_of_Z quantity; price := Qc_of_Z price;
     value := (Qc_of_Z quantity * Qc_of_Z price)%Qc |}.

(** The three TCS deals of the specification: two institutional buyers and
    one that is not. *)
Definition tcs_deals : list Deal :=
  [ example_deal "TCS" "XYZ MUTUAL FUND" 100 10;
    example_deal "TCS" "ABC BANK LTD" 50 20;
    example_deal "TCS" "RAJESH KUMAR SHARMA" 10 5 ].

(** A text made of the given lines. *)
Definition unlines (lines : list (list ascii)) : list ascii :=
  concat (map (fun line => line ++ ["010"%char]) lines).

Definition two_day_file : list ascii :=
  unlines
    [ js "Date,Symbol,Client Name,Deal Type,Quantity,Price,Exchange,Remarks";
      js "30-Oct-2026,TCS,XYZ MUTUAL FUND,BUY,100,10,NSE,-";
      js "30-Oct-2026,INFY," ++ quoted "ABC BANK, LTD" ++ js ",buy,"
      ++ quoted "1,000" ++ js ",12.5,NSE,-";
      js "30-Oct-2026,TCS,LIC OF INDIA,BUY,50,20,NSE,-" ].

(** Monday 2026-11-02: the archive has no file for that day and the file
    above for Friday 2026-10-30. *)
Definition two_day_world (max_arguments : nat) : World :=
  {| today := 20759;
     fetch := fun url =>
       if decide (url = archive_url (js "30102026")) then
         Return {| ok := true; text := Return two_day_file |}
       else Return {| ok := false; text := Return (js "Not Found") |};
     max_arguments := max_arguments |}.

(** A world without network: every request fails. *)
Definition offline_world : World :=
  {| today := 20758;
     fetch := fun _ => Throw (ErrorObject (js "fetch failed"));
     max_arguments := 65535 |}.

(** ** Event stream, as specified *)





(** The Progress events that announce the days, in order. *)
Definition day_events (dates : list Date) : list event :=
  map (fun date => Progress (fetching_message date)) dates.

(** ** Further notions used by the properties *)


(** The days that the loop of [POST] visits: all of them, or those up to
    the first one whose deals are too many to be spread into [push]. *)
Fixpoint visited_days (w : World) (dates : list Date) : list Date :=
  match dates with
  | [] => []
  | day :: rest =>
      if decide (max_arguments w < length (fetched w day).1)%nat then [day]
      else day :: visited_days w rest
  end.

(** [dates] are the most recent business days not after [today], without a
    gap: strictly decreasing business days, and any business day not after
    [today] that is missing is older than all of them. *)
Definition recent_business_days (today : Date) (dates : list Date) : Prop :=
  StronglySorted (fun a b => b < a) dates
  /\ Forall business_day dates
  /\ Forall (fun d => d <= today) dates
  /\ (forall d, d <= today -> business_day d -> ~ In d dates ->
      Forall (fun x => d < x) dates).

(** The day number of a date of the proleptic Gregorian calendar: the
    inverse of [civil]. *)
Definition days_from_civil (y m d : Z) : Z :=
  let y' := if decide (m <= 2) then y - 1 else y in
  let era := y' / 400 in
  let yoe := y' - era * 400 in
  let mp := if decide (m <= 2) then m + 9 else m - 3 in
  let doy := (153 * mp + 2) / 5 + d - 1 in
  let doe := yoe * 365 + yoe / 4 - yoe / 100 + doy in
  era * 146097 + doe - 719468.

Definition is_digit (c : ascii) : bool :=
  match digit_of c with Some _ => true | None => false end.

(** [s] is the decimal writing of [n] on exactly [width] digits. *)
Definition writes (width : nat) (n : Z) (s : list ascii) : bool :=
  bool_decide (length s = width) && forallb is_digit s
  && bool_decide (read_digits 0 0 s = (n, width, [])).

(** ** The page: the client of the stream ([src/app/page.tsx]) *)

Module Page.

(** The four pieces of state of the [Home] component. *)
Record View := {
  loading : bool;
  results : list StockAccumulation;
  error : list ascii;
  progress : list ascii
}.

(** What [JSON.parse] gives for the text of a [data:] line, as far as the
    page looks at it: the [type] of the object and the field that goes
    with it.  The parser of the page, [parse] below, stands for
    [JSON.parse] followed by the reading of [data.type]; either may
    throw. *)
Inductive message :=
| ProgressMessage (text : list ascii)
| ResultMessage (data : list StockAccumulation)
| ErrorMessage (text : list ascii)
| OtherMessage.

(** The body of [if (line.startsWith('data: '))] once the line is parsed. *)
Definition dispatch (v : View) (data : message) : View :=
  match data with
  | ProgressMessage text =>
      {| loading := loading v; results := results v; error := error v;
         progress := text |}
  | ResultMessage data =>
      {| loading := loading v; results := data; error := error v;
         progress := js "Analysis complete!" |}
  | ErrorMessage text =>
      {| loading := loading v; results := results v; error := text;
         progress := progress v |}
  | OtherMessage => v
  end.

(** The loop [for (const line of lines)]: the view reached, and the
    exception that the parsing of a line threw, if it did. *)
Fixpoint read_lines (parse : list ascii -> outcome message) (v : View)
    (lines : list (list ascii)) : View * option thrown :=
  match lines with
  | [] => (v, None)
  | line :: rest =>
      if startsWith line (js "data: ") then
        match parse (drop 6 line) with
        | Return data => read_lines parse (dispatch v data) rest
        | Throw e => (v, Some e)
        end
      else read_lines parse v rest
  end.

(** The loop [while (true)] over the chunks that [reader.read()] resolves
    to; a read may reject, and the end of the list is [done]. *)
Fixpoint read_chunks (parse : list ascii -> outcome message) (v : View)
    (reads : list (outcome (list ascii))) : View * option thrown :=
  match reads with
  | [] => (v, None)
  | Throw e :: _ => (v, Some e)
  | Return chunk :: rest =>
      match read_lines parse v (split "010"%char chunk) with
      | (v', None) => read_chunks parse v' rest
      | (v', Some e) => (v', Some e)
      end
  end.

(** The answer to [fetch('/api/analyze', { method: 'POST' })]: its [ok]
    flag and the chunks of its body, if it has one. *)
Record Reply := {
  reply_ok : bool;
  body : option (list (outcome (list ascii)))
}.

(** [err instanceof Error ? err.message : 'An error occurred']. *)
Definition failure_text (err : thrown) : list ascii :=
  match err with
  | ErrorObject message => message
  | OtherValue => js "An error occurred"
  end.

(** The click handler [analyzeAccumulation] of the page: the view it
    leaves, from the view [v] it starts in. *)
Definition analyzeAccumulation (parse : list ascii -> outcome message)
    (reply : outcome Reply) (v : View) : View :=
  let started :=
    {| loading := true; results := []; error := [];
       progress := js "Starting analysis..." |} in
  let '(tried, thrown) :=
    match reply with
    | Throw e => (started, Some e)
    | Return response =>
        if negb (reply_ok response) then
          (started, Some (ErrorObject (js "Analysis failed")))
        else
          match body response with
          | Some reads => read_chunks parse started reads
          | None => (started, None)
          end
    end in
  let caught :=
    match thrown with
    | Some err =>
        {| loading := loading tried; results := results tried;
           error := failure_text err; progress := progress tried |}
    | None => tried
    end in
  {| loading := false; results := results caught; error := error caught;
     progress := progress caught |}.

End Page.

(** ** The wire format of the events *)

(** The chunk that [POST] enqueues for an event: the text of
    [JSON.stringify], here [stringify], between [data: ] and two line
    feeds. *)
Definition wire (stringify : event -> list ascii) (ev : event) : list ascii :=
  js "data: " ++ stringify ev ++ ["010"%char; "010"%char].

(** What the page reads in an event of the stream. *)
Definition message_of (ev : event) : Page.message :=
  match ev with
  | Progress message => Page.ProgressMessage message
  | Result data => Page.ResultMessage data
  | Error message => Page.ErrorMessage message
  end.

(** A serialiser for the examples: a letter for the type of the event and,
    for the two kinds that carry a text, the text. *)
Definition tag_event (ev : event) : list ascii :=
  match ev with
  | Progress message => "P"%char :: message
  | Result _ => js "R"
  | Error message => "E"%char :: message
  end.

(** Its parser, for streams whose Result events carry [data]. *)
Definition untag (data : list StockAccumulation) (s : list ascii)
    : outcome Page.message :=
  match s with
  | c :: rest =>
      if decide (c = "P"%char) then Return (Page.ProgressMessage rest)
      else if decide (c = "E"%char) then Return (Page.ErrorMessage rest)
      else if decide (c = "R"%char) then Return (Page.ResultMessage data)
      else Throw (ErrorObject (js "Unexpected token"))
  | [] => Throw (ErrorObject (js "Unexpected end of JSON input"))
  end.

(** * The numeric code as the engine runs it

    The definitions above compute with exact rationals and read a date as
    one calendar day.  That is enough for what does not depend on rounding
    or on the time zone; the row rule of the fetcher and the ranking of the
    aggregator do.  The module [Runtime] embeds them over the numbers of
    the language, IEEE 754 binary64 (the primitive type [float]), and over
    dates that carry both the local and the UTC day. *)

(** ** Binary64 numbers *)

(** The result of a rounding has the sign it is given and is never
    [NaN]. *)
Inductive rounded (s : bool) : spec_float -> Prop :=
| rounded_zero : rounded s (S754_zero s)
| rounded_finite m e : rounded s (S754_finite s m e)
| rounded_infinity : rounded s (S754_infinity s).

Inductive rounded_positive (s : bool) : spec_float -> Prop :=
| rounded_positive_finite m e : rounded_positive s (S754_finite s m e)
| rounded_positive_infinity : rounded_positive s (S754_infinity s).

(** An integer that orders the numbers of the format as [SFcompare]
    does. *)
Definition rank (X : spec_float) : Z :=
  match X with
  | S754_zero _ => 0
  | S754_nan => 0
  | S754_infinity s =>
      if s then - 27021597764222976000 else 27021597764222976000
  | S754_finite s m e =>
      let r := (e + 1075) * 9007199254740992 + Z.pos m in
      if s then - r else r
  end.

Definition ord (x : float) : Z := rank (Prim2SF x).

Module Runtime.

(** The Number value of the decimal [m * 10 ^ e], [m] not negative: the
    binary64 number nearest to it, ties to the even mantissa, an infinity
    above the range and zero below it. *)
Definition of_decimal (m e : Z) : float :=
  SF2Prim
    (if decide (0 <= e) then binary_normalize prec emax (m * 10 ^ e) 0 false
     else
       match m with
       | Z.pos p =>
           SFdiv prec emax (S754_finite false p 0)
             (S754_finite false (Z.to_pos (10 ^ (- e))) 0)
       | _ => S754_zero false
       end).

(** [parseFloat]: leading white space is skipped and the longest prefix
    that is a decimal literal, or a signed [Infinity], is read; without
    such a prefix the result is [NaN]. *)
Definition parseFloat (input : list ascii) : float :=
  let '(neg, s1) := read_sign (trimStart input) in
  let signed (x : float) := if neg then (- x)%float else x in
  if startsWith s1 (js "Infinity") then signed infinity
  else
    let '(ip, icnt, s2) := read_digits 0 0 s1 in
    let '(fp, fcnt, s3) :=
      match s2 with
      | c :: s2' =>
          if decide (c = "."%char) then read_digits 0 0 s2' else (0, 0%nat, s2)
      | [] => (0, 0%nat, s2)
      end in
    if decide ((icnt + fcnt)%nat = 0%nat) then nan
    else
      signed
        (of_decimal (ip * 10 ^ Z.of_nat fcnt + fp)
           (read_exponent s3 - Z.of_nat fcnt)).

(** A [Date] object as the fetcher reads it: through the local calendar
    for [getDate], [getMonth], [getFullYear] and [toLocaleDateString], and
    through UTC for [toISOString].  Both are day numbers; they differ by
    one when the time of day and the offset of the time zone put the
    instant on another day of UTC. *)
Record Instant := {
  local_day : Date;
  utc_day : Date
}.

Record Deal := {
  date : list ascii;
  symbol : list ascii;
  clientName : list ascii;
  dealType : list ascii;
  quantity : float;
  price : float;
  value : float
}.

(** The field [acc_symbol] is [symbol] in the source. *)
Record StockAccumulation := {
  acc_symbol : list ascii;
  totalBuyQuantity : float;
  totalBuyValue : float;
  transactions : nat;
  avgPrice : float
}.

(** The body of the row loop of [downloadBhavCopy]: the deal pushed for
    the line, if any. *)
Definition deal_of_line (date : Instant) (line : list ascii) : option Deal :=
  let fields := parseCSVLine line in
  if decide (length fields < 8)%nat then None
  else
    let symbol := field_or fields 1 trim [] in
    let clientName := field_or fields 2 trim [] in
    let dealType := field_or fields 3 (fun s => toUpperCase (trim s)) [] in
    let quantity :=
      parseFloat (field_or fields 4 (remove_char ","%char) (js "0")) in
    let price :=
      parseFloat (field_or fields 5 (remove_char ","%char) (js "0")) in
    if truthy symbol && truthy clientName && (0 <? quantity)%float
       && (0 <? price)%float && bool_decide (dealType = js "BUY")
    then
      Some {| date := isoDate (utc_day date); symbol := symbol;
              clientName := clientName; dealType := dealType;
              quantity := quantity; price := price;
              value := (quantity * price)%float |}
    else None.

(** The loop [for (let i = 1; i < lines.length; i++)]. *)
Definition deals_of_lines (date : Instant) (lines : list (list ascii))
    : list Deal :=
  fold_left
    (fun deals line =>
       match deal_of_line date line with
       | Some deal => deals ++ [deal]
       | None => deals
       end)
    (drop 1 lines) [].

(** The part of [downloadBhavCopy] that follows [response.text()]. *)
Definition deals_of_text (date : Instant) (csvText : list ascii) : list Deal :=
  let lines := non_blank_lines csvText in
  if decide (length lines < 2)%nat then [] else deals_of_lines date lines.

Definition downloadBhavCopy (w : World) (date : Instant) : M (list Deal) :=
  let dateStr := formatDateForNSE (local_day date) in
  let url := archive_url dateStr in
  enqueue (Progress (fetching_message (local_day date))) ;;
  try_catch
    (response ← await (fetch w url);
     if negb (ok response) then
       console_log
         (js "No data available for " ++ toLocaleDateString (local_day date)) ;;
       ret []
     else
       csvText ← await (text response);
       ret (deals_of_text date csvText))
    (fun error =>
       console_error (js "Error fetching data for " ++ dateStr ++ js ":")
         error ;;
       ret []).

(** The value type of [stockMap]. *)
Record Totals := {
  sumQuantity : float;
  sumValue : float;
  count : nat
}.

(** A [Map] keeps its keys in insertion order, and setting a key that is
    present keeps its place. *)
Fixpoint map_get {V} (m : list (list ascii * V)) (key : list ascii)
    : option V :=
  match m with
  | [] => None
  | (k, v) :: m' => if decide (k = key) then Some v else map_get m' key
  end.

Fixpoint map_set {V} (m : list (list ascii * V)) (key : list ascii) (v : V)
    : list (list ascii * V) :=
  match m with
  | [] => [(key, v)]
  | (k, w) :: m' =>
      if decide (k = key) then (k, v) :: m' else (k, w) :: map_set m' key v
  end.

(** The filter of [analyzeAccumulation]. *)
Definition qualifies (deal : Deal) : bool :=
  bool_decide (dealType deal = js "BUY") && isInstitutional (clientName deal).

(** The body of the loop over [institutionalDeals]. *)
Definition accumulate (stockMap : list (list ascii * Totals)) (deal : Deal)
    : list (list ascii * Totals) :=
  let existing :=
    default {| sumQuantity := 0; sumValue := 0; count := 0 |}
      (map_get stockMap (symbol deal)) in
  map_set stockMap (symbol deal)
    {| sumQuantity := (sumQuantity existing + quantity deal)%float;
       sumValue := (sumValue existing + value deal)%float;
       count := (count existing + 1)%nat |}.

Definition to_result (entry : list ascii * Totals) : StockAccumulation :=
  let '(symbol, data) := entry in
  {| acc_symbol := symbol;
     totalBuyQuantity := sumQuantity data;
     totalBuyValue := sumValue data;
     transactions := count data;
     avgPrice := (sumValue data / sumQuantity data)%float |}.

(** The comparator given to [sort]. *)
Definition compareFn (a b : StockAccumulation) : float :=
  (totalBuyValue b - totalBuyValue a)%float.

(** [Array.prototype.sort] with a comparator: a result that is [NaN]
    counts as zero, and an element moves behind another one only when
    the comparator puts it strictly after.  The sort is stable; it is
    modelled by insertion, which gives the order of every stable sort as
    long as the comparator is consistent, that is, here, as long as no
    compared value is [NaN] ([runtime_ranked_unique] below). *)
Fixpoint sort_insert {A} (cmp : A -> A -> float) (x : A) (l : list A)
    : list A :=
  match l with
  | [] => [x]
  | y :: l' =>
      if (0 <? cmp x y)%float then y :: sort_insert cmp x l' else x :: l
  end.

Definition sort {A} (cmp : A -> A -> float) (l : list A) : list A :=
  foldr (sort_insert cmp) [] l.

Definition analyzeAccumulation (allDeals : list Deal)
    : list StockAccumulation :=
  let institutionalDeals := filter (fun deal => qualifies deal = true) allDeals in
  let stockMap := fold_left accumulate institutionalDeals [] in
  let results := map to_result stockMap in
  take 10 (sort compareFn results).

(** ** Deal rows, as specified *)

(** A parsed row is accepted, with the given symbol, counterparty name,
    quantity and price, when it has at least 8 fields, the symbol and the
    counterparty name are not empty after trimming, the deal type reads BUY
    once upper-cased, and quantity and price, parsed as numbers after
    stripping the thousands separators, are strictly positive. *)
Definition accepted_row (fields : list (list ascii))
    (symbol counterparty : list ascii) (quantity price : float) : Prop :=
  (8 <= length fields)%nat
  /\ (exists f, fields !! 1%nat = Some f /\ symbol = trim f /\ symbol <> [])
  /\ (exists f, fields !! 2%nat = Some f /\ counterparty = trim f
                /\ counterparty <> [])
  /\ (exists f, fields !! 3%nat = Some f /\ toUpperCase f = js "BUY")
  /\ (exists f, fields !! 4%nat = Some f
                /\ quantity = parseFloat (remove_char ","%char f)
                /\ (0 <? quantity)%float = true)
  /\ (exists f, fields !! 5%nat = Some f
                /\ price = parseFloat (remove_char ","%char f)
                /\ (0 <? price)%float = true).

(** What a call of [downloadBhavCopy] returns and what it logs, read off
    the outcome of the request. *)
Definition fetched (w : World) (date : Instant) : list Deal * list log_entry :=
  let failed error :=
    ([],
     [LogError (js "Error fetching data for "
                ++ formatDateForNSE (local_day date) ++ js ":") error]) in
  match fetch w (archive_url (formatDateForNSE (local_day date))) with
  | Throw error => failed error
  | Return response =>
      if ok response then
        match text response with
        | Throw error => failed error
        | Return csvText => (deals_of_text date csvText, [])
        end
      else
        ([], [Log (js "No data available for "
                   ++ toLocaleDateString (local_day date))])
  end.

(** What holds of every deal read from the file of a day. *)
Record fetched_deal (day : Instant) (deal : Deal) : Prop := {
  fetched_date : date deal = isoDate (utc_day day);
  fetched_type : dealType deal = js "BUY";
  fetched_symbol : symbol deal <> [] /\ trim (symbol deal) = symbol deal;
  fetched_client :
    clientName deal <> [] /\ trim (clientName deal) = clientName deal;
  fetched_quantity : (0 <? quantity deal)%float = true;
  fetched_price : (0 <? price deal)%float = true;
  fetched_value :
    value deal = (quantity deal * price deal)%float
    /\ (0 <=? value deal)%float = true
}.

(** ** Aggregation, as specified *)

(** The sum of the numbers in the order of the list, from zero. *)
Definition sum (l : list float) : float := fold_left add l 0%float.

(** The totals of a symbol over the deals. *)
Definition totals_of (deals : list Deal) (s : list ascii) : Totals :=
  let group := filter (fun deal => symbol deal = s) deals in
  {| sumQuantity := sum (map quantity group);
     sumValue := sum (map value group);
     count := length group |}.

(** The accumulation of a symbol over the deals: quantities and values
    summed in the order of the rows, rows counted, and the average price
    their quotient. *)
Definition accumulation (deals : list Deal) (s : list ascii)
    : StockAccumulation :=
  let group := filter (fun deal => symbol deal = s) deals in
  {| acc_symbol := s;
     totalBuyQuantity := sum (map quantity group);
     totalBuyValue := sum (map value group);
     transactions := length group;
     avgPrice := (sum (map value group) / sum (map quantity group))%float |}.

(** The accumulations of the institutional BUY deals, one per symbol, in
    the order in which the symbols are first met. *)
Definition accumulations (allDeals : list Deal) : list StockAccumulation :=
  let qualifying :=
    filter
      (fun deal =>
         dealType deal = js "BUY" /\ isInstitutional (clientName deal) = true)
      allDeals in
  map (accumulation qualifying) (first_seen [] (map symbol qualifying)).


(** ** Example data *)

Definition example_deal (symbol clientName : string) (quantity price : float)
    : Deal :=
  {| date := js "2026-10-30"; symbol := js symbol;
     clientName := js clientName; dealType := js "BUY";
     quantity := quantity; price := price;
     value := (quantity * price)%float |}.

(** The three TCS deals of the specification: two institutional buyers and
    one that is not. *)
Definition tcs_deals : list Deal :=
  [ example_deal "TCS" "XYZ MUTUAL FUND" 100 10;
    example_deal "TCS" "ABC BANK LTD" 50 20;
    example_deal "TCS" "RAJESH KUMAR SHARMA" 10 5 ].

End Runtime.

(** * Properties *)

(** ** The model of the built-in functions on examples *)

Example civil_examples :
  civil 0 = (1970, 1, 1) /\ civil 11016 = (2000, 2, 29)
  /\ civil 20758 = (2026, 11, 1) /\ civil (-1) = (1969, 12, 31).
Proof. repeat split; reflexivity. Qed.

Example getDay_examples :
  getDay 0 = 4 /\ getDay 20758 = 0 /\ getDay 20757 = 6 /\ getDay (-1) = 3.
Proof. repeat split; reflexivity. Qed.

Example date_format_examples :
  formatDateForNSE 20756 = js "30102026"
  /\ toLocaleDateString 20756 = js "30/10/2026"
  /\ isoDate 20759 = js "2026-11-02".
Proof. repeat split; vm_compute; reflexivity. Qed.

Example parseFloat_examples :
  parseFloat (js "12.5") = Some (Qc_of_Z 25 / Qc_of_Z 2)%Qc
  /\ parseFloat (js " 1000") = Some (Qc_of_Z 1000)
  /\ parseFloat (js "2.5e-1x") = Some (Qc_of_Z 1 / Qc_of_Z 4)%Qc
  /\ parseFloat (js "-3") = Some (Qc_of_Z (-3))
  /\ parseFloat (js "abc") = None
  /\ parseFloat (js ".") = None
  /\ parseFloat (js "") = None.
Proof.
  repeat split; try reflexivity;
    (match goal with
     | |- ?x = Some ?q =>
         let H := fresh in
         assert (H : exists r, x = Some r /\ (r == q)%Q)
           by (eexists; split; vm_compute; reflexivity);
         destruct H as (r & -> & H); f_equal; apply Qc_is_canon, H
     end).
Qed.

Example split_examples :
  split "010"%char (js "") = [[]]
  /\ split ","%char (js "a,b,") = [js "a"; js "b"; []]
  /\ trim (js "  a b  ") = js "a b".
Proof. repeat split; reflexivity. Qed.

Example getLastNBusinessDays_example :
  getLastNBusinessDays 20758 5 = [20756; 20755; 20754; 20753; 20752].
Proof. vm_compute. reflexivity. Qed.

(** ** Strings *)

Lemma startsWith_spec s k :
  startsWith s k = true <-> exists post, s = k ++ post.
Proof.
  revert s; induction k as [|c k IH]; intros s; simpl.
  - split; [intros _; exists s; reflexivity | reflexivity].
  - destruct s as [|d s]; simpl.
    + split; [discriminate | intros [post H]; discriminate].
    + destruct (decide (c = d)) as [->|Hne].
      * rewrite IH. split; intros [post H]; exists post; congruence.
      * split; [discriminate | intros [post H]; congruence].
Qed.

Lemma includes_spec s k : includes s k = true <-> substring k s.
Proof.
  unfold substring. induction s as [|d s IH]; simpl.
  - rewrite orb_false_r, startsWith_spec. split.
    + intros [post H]. exists [], post. exact H.
    + intros (pre & post & H). destruct pre; [eauto | discriminate].
  - rewrite orb_true_iff, startsWith_spec, IH. split.
    + intros [[post H] | (pre & post & H)].
      * exists [], post. exact H.
      * exists (d :: pre), post. simpl. congruence.
    + intros (pre & post & H). destruct pre as [|e pre]; simpl in H.
      * left. eauto.
      * right. exists pre, post. congruence.
Qed.

Lemma trimStart_decomp s :
  exists a, s = a ++ trimStart s /\ Forall (fun c => is_space c = true) a.
Proof.
  induction s as [|c s (a & Hs & Ha)]; simpl.
  - exists []. split; [reflexivity | constructor].
  - destruct (is_space c) eqn:Hc.
    + exists (c :: a). split; [simpl; congruence | constructor; assumption].
    + exists []. split; [reflexivity | constructor].
Qed.

Lemma trimStart_head s c : head (trimStart s) = Some c -> is_space c = false.
Proof.
  induction s as [|d s IH]; simpl; [discriminate |].
  destruct (is_space d) eqn:Hd; [exact IH |].
  simpl. congruence.
Qed.

Lemma trimStart_id s :
  (forall c, head s = Some c -> is_space c = false) -> trimStart s = s.
Proof.
  destruct s as [|d s]; simpl; [reflexivity |].
  intros H. rewrite (H d eq_refl). reflexivity.
Qed.

Lemma trimEnd_decomp s :
  exists b, s = trimEnd s ++ b /\ Forall (fun c => is_space c = true) b.
Proof.
  unfold trimEnd. destruct (trimStart_decomp (reverse s)) as (a & Hs & Ha).
  exists (reverse a). split.
  - rewrite <- reverse_app, <- Hs, reverse_involutive. reflexivity.
  - apply Forall_reverse. exact Ha.
Qed.

Lemma trimEnd_last s c : last (trimEnd s) = Some c -> is_space c = false.
Proof.
  unfold trimEnd. rewrite last_reverse. apply trimStart_head.
Qed.

Lemma trimEnd_id s :
  (forall c, last s = Some c -> is_space c = false) -> trimEnd s = s.
Proof.
  intros H. unfold trimEnd. rewrite trimStart_id.
  - apply reverse_involutive.
  - intros c. rewrite head_reverse. apply H.
Qed.

Lemma trimEnd_head s c :
  head (trimEnd s) = Some c -> head s = Some c.
Proof.
  destruct (trimEnd_decomp s) as (b & Hs & _). intros H.
  rewrite Hs. apply head_app_Some. left. exact H.
Qed.

Lemma trim_head s c : head (trim s) = Some c -> is_space c = false.
Proof.
  unfold trim. intros H. apply trimEnd_head in H.
  apply trimStart_head in H. exact H.
Qed.

Lemma trim_last s c : last (trim s) = Some c -> is_space c = false.
Proof. unfold trim. apply trimEnd_last. Qed.

Lemma trim_fixed s :
  (forall c, head s = Some c -> is_space c = false) ->
  (forall c, last s = Some c -> is_space c = false) ->
  trim s = s.
Proof.
  intros Hh Hl. unfold trim. rewrite (trimStart_id s Hh). apply trimEnd_id, Hl.
Qed.

Lemma trim_idemp s : trim (trim s) = trim s.
Proof. apply trim_fixed; [apply trim_head | apply trim_last]. Qed.

Lemma trim_decomp s :
  exists a b, s = a ++ trim s ++ b
    /\ Forall (fun c => is_space c = true) a
    /\ Forall (fun c => is_space c = true) b.
Proof.
  destruct (trimStart_decomp s) as (a & Hs & Ha).
  destruct (trimEnd_decomp (trimStart s)) as (b & Ht & Hb).
  exists a, b. unfold trim. rewrite <- Ht. auto.
Qed.

Lemma trim_Forall (P : ascii -> Prop) s : Forall P s -> Forall P (trim s).
Proof.
  destruct (trim_decomp s) as (a & b & Hs & _). intros H.
  rewrite Hs in H. apply Forall_app in H as [_ H].
  apply Forall_app in H as [H _]. exact H.
Qed.

(** ** Institutional classifier *)

(** C8. [isInstitutional name] is true exactly when the upper-cased name
    contains one of the nineteen keywords as a substring; the three names
    of the specification are classified as it says. *)
Theorem isInstitutional_iff_keyword_substring :
  (forall name,
     isInstitutional name = true <->
     exists keyword,
       In keyword
         (map js
            [ "INSURANCE"; "MUTUAL FUND"; "LIC"; "TRUST"; "BANK";
              "SECURITIES"; "INVESTMENT"; "CAPITAL"; "FUND";
              "ASSET MANAGEMENT"; "PENSION"; "PMS"; "AIF"; "FII"; "DII";
              "INSTITUTIONAL"; "FINANCIAL SERVICES"; "WEALTH";
              "HOLDINGS" ]%string)
       /\ substring keyword (toUpperCase name))
  /\ isInstitutional (js "XYZ MUTUAL FUND") = true
  /\ isInstitutional (js "RAJESH KUMAR SHARMA") = false
  /\ isInstitutional (js "abc bank ltd") = true.
Proof.
  split; [| repeat split; vm_compute; reflexivity].
  intros name. unfold isInstitutional. cbv zeta.
  rewrite existsb_exists. fold INSTITUTIONAL_KEYWORDS.
  split; intros (keyword & Hin & Hk); exists keyword; split; try exact Hin;
    apply includes_spec; exact Hk.
Qed.

(** ** Row parser *)

Lemma cut_at_nonempty f i s : cut_at f i s <> [].
Proof.
  revert i; induction s as [|c s IH]; intros i; simpl; [discriminate |].
  destruct (f i); [discriminate |].
  destruct (cut_at f (S i) s); discriminate.
Qed.

(** The loop of [parseCSVLine] from any state: [p] is the part of the line
    already read. *)
Lemma csv_loop_spec l : forall p st,
  inQuotes st = in_quoted_span (p ++ l) (length p) ->
  let st' := fold_left csv_step l st in
  result st' ++ [trim (current st')] =
  result st ++
    match cut_at (is_split_point (p ++ l)) (length p) l with
    | piece :: pieces =>
        trim (current st ++ remove_char quote piece)
        :: map unquote_and_trim pieces
    | [] => []
    end.
Proof.
  induction l as [|c l IH]; intros p st Hq; simpl.
  - rewrite app_nil_r. reflexivity.
  - assert (Hsplit : is_split_point ((p ++ [c]) ++ l) (length p)
                     = bool_decide (c = ","%char) && negb (inQuotes st)).
    { unfold is_split_point. rewrite <- app_assoc. simpl. rewrite Hq. f_equal.
      rewrite list_lookup_middle by reflexivity.
      apply bool_decide_ext. split; congruence. }
    assert (Hnext : forall st1,
              inQuotes st1
              = (if decide (c = quote) then negb (inQuotes st)
                 else inQuotes st) ->
              inQuotes st1 = in_quoted_span ((p ++ [c]) ++ l) (length (p ++ [c]))).
    { intros st1 ->. rewrite Hq. unfold in_quoted_span.
      rewrite !take_app_length, filter_app, length_app.
      rewrite filter_cons, filter_nil.
      destruct (decide (c = quote)); simpl.
      - rewrite Nat.add_1_r, Nat.odd_succ, <- Nat.negb_odd. reflexivity.
      - rewrite Nat.add_0_r. reflexivity. }
    specialize (IH (p ++ [c]) (csv_step st c)). cbv zeta in IH.
    replace (p ++ c :: l) with ((p ++ [c]) ++ l)
      by (rewrite <- app_assoc; reflexivity).
    replace (S (length p)) with (length (p ++ [c]))
      by (rewrite length_app; simpl; lia).
    destruct (cut_at _ _ l) as [|piece pieces] eqn:Hcut;
      [exfalso; eapply cut_at_nonempty; eassumption |].
    rewrite IH; clear IH.
    + rewrite Hsplit.
      unfold csv_step, remove_char. fold quote.
      destruct (decide (c = quote)) as [->|Hc]; simpl.
      * rewrite filter_cons, decide_False by tauto. reflexivity.
      * destruct (bool_decide (c = ","%char) && negb (inQuotes st)); simpl.
        -- rewrite <- app_assoc, app_nil_r. reflexivity.
        -- rewrite filter_cons, decide_True by exact Hc.
           rewrite <- app_assoc. reflexivity.
    + apply Hnext. unfold csv_step. fold quote.
      destruct (decide (c = quote)) as [->|Hc]; simpl; [reflexivity |].
      destruct (bool_decide (c = ","%char) && negb (inQuotes st));
        reflexivity.
Qed.

Lemma cut_at_length f i s :
  length (cut_at f i s)
  = S (length (filter (fun j => f j = true) (seq i (length s)))).
Proof.
  revert i; induction s as [|c s IH]; intros i; simpl; [reflexivity |].
  specialize (IH (S i)). rewrite filter_cons.
  destruct (f i) eqn:Hf.
  - rewrite decide_True by reflexivity. simpl. rewrite IH. reflexivity.
  - rewrite decide_False by discriminate.
    destruct (cut_at f (S i) s); simpl in *; [discriminate | exact IH].
Qed.

Lemma parseCSVLine_refines line : parseCSVLine line = parseDelimitedRow line.
Proof.
  unfold parseCSVLine, parseDelimitedRow.
  pose proof (csv_loop_spec line []
                {| result := []; current := []; inQuotes := false |}) as H.
  cbv zeta in H. simpl in H. rewrite H by reflexivity.
  destruct (cut_at _ _ line); reflexivity.
Qed.

(** C6. [parseCSVLine] splits the line at the commas outside the quoted
    spans, drops every quote character and trims every field; the example
    of the specification parses as it says. *)
Theorem parseCSVLine_splits_outside_quotes :
  (forall line, parseCSVLine line = parseDelimitedRow line)
  /\ (forall line,
        length (parseCSVLine line)
        = S (length (filter (fun i => is_split_point line i = true)
                       (seq 0 (length line)))))
  /\ (forall line field,
        In field (parseCSVLine line) ->
        ~ In quote field
        /\ (forall c, head field = Some c -> is_space c = false)
        /\ (forall c, last field = Some c -> is_space c = false))
  /\ parseCSVLine (js "a," ++ quoted "b,c" ++ js ",d")
     = [js "a"; js "b,c"; js "d"].
Proof.
  split; [exact parseCSVLine_refines |].
  split; [| split; [| vm_compute; reflexivity]].
  - intros line. rewrite parseCSVLine_refines. unfold parseDelimitedRow.
    rewrite length_map. apply cut_at_length.
  - intros line field. rewrite parseCSVLine_refines. unfold parseDelimitedRow.
    rewrite in_map_iff. intros (piece & <- & _). unfold unquote_and_trim.
    split; [| split; [apply trim_head | apply trim_last]].
    intros Hin.
    assert (H : Forall (fun c => c <> quote)
                  (trim (remove_char quote piece))).
    { apply trim_Forall. unfold remove_char.
      apply Forall_forall. intros c Hc.
      apply list_elem_of_filter in Hc. tauto. }
    rewrite Forall_forall in H. apply (H quote); [| reflexivity].
    apply list_elem_of_In. exact Hin.
Qed.

(** ** Business-day calendar *)

(** The loop from any state: the dates it adds are the next [n - count]
    business days met walking backward from [currentDate]. *)
Lemma business_days_loop_spec n count currentDate dates :
  (count <= n)%nat ->
  exists new,
    business_days_loop n count currentDate dates = dates ++ new
    /\ length new = (n - count)%nat
    /\ Forall business_day new
    /\ Forall (fun d => d <= currentDate) new
    /\ StronglySorted (fun a b => b < a) new
    /\ (forall d, d <= currentDate -> business_day d -> ~ In d new ->
        Forall (fun x => d < x) new).
Proof.
  funelim (business_days_loop n count currentDate dates); intros Hle.
  - exists []. rewrite app_nil_r.
    repeat split; try constructor. simpl. lia.
  - destruct H as (new & Heq' & Hlen & Hbus & Hub & Hsort & Hall); [lia |].
    exists (currentDate :: new). rewrite Heq', <- app_assoc.
    split; [reflexivity |]. split; [simpl; lia |].
    split; [constructor; assumption |].
    split.
    { constructor; [lia |]. eapply Forall_impl; [exact Hub |].
      simpl. intros; lia. }
    split.
    { constructor; [exact Hsort |]. eapply Forall_impl; [exact Hub |].
      simpl. intros; lia. }
    intros d Hd Hb Hnot. simpl in Hnot.
    assert (d <> currentDate) by (intros ->; apply Hnot; left; reflexivity).
    constructor; [lia |]. apply Hall; [lia | exact Hb | tauto].
  - destruct H as (new & Heq' & Hlen & Hbus & Hub & Hsort & Hall); [lia |].
    exists new. split; [exact Heq' |]. split; [exact Hlen |].
    split; [exact Hbus |].
    split.
    { eapply Forall_impl; [exact Hub |]. simpl. intros; lia. }
    split; [exact Hsort |].
    intros d Hd Hb Hnot.
    assert (d <> currentDate).
    { intros ->. match goal with Hn : ~ (_ /\ _) |- _ => exact (Hn Hb) end. }
    apply Hall; [lia | exact Hb | exact Hnot].
Qed.

(** C5. For a window of [n >= 1] days, [getLastNBusinessDays] returns [n]
    dates, strictly decreasing, none of them a Saturday or a Sunday: the
    [n] most recent business days not after [today], today included when
    it is a business day.  The loop terminates: [business_days_loop] is
    defined by well-founded recursion, every step either collecting a date
    or moving across a weekend of at most two days. *)
Theorem getLastNBusinessDays_spec (today : Date) (n : nat) :
  (1 <= n)%nat ->
  let dates := getLastNBusinessDays today n in
  length dates = n
  /\ StronglySorted (fun a b => b < a) dates
  /\ Forall business_day dates
  /\ Forall (fun d => d <= today) dates
  /\ (forall d, d <= today -> business_day d -> ~ In d dates ->
      Forall (fun x => d < x) dates)
  /\ (business_day today -> head dates = Some today).
Proof.
  intros Hn dates.
  destruct (business_days_loop_spec n 0 today [])
    as (new & Heq & Hlen & Hbus & Hub & Hsort & Hall); [lia |].
  simpl in Heq. fold (getLastNBusinessDays today n) in Heq.
  fold dates in Heq. rewrite <- Heq in *. clear Heq new.
  split; [lia |]. split; [exact Hsort |]. split; [exact Hbus |].
  split; [exact Hub |]. split; [exact Hall |].
  intros Hb. destruct dates as [|d0 rest]; [simpl in Hlen; lia |].
  simpl. f_equal.
  destruct (in_dec Z.eq_dec today (d0 :: rest)) as [Hin | Hout].
  - destruct Hin as [-> | Hin]; [reflexivity |].
    apply StronglySorted_inv in Hsort as [_ Hlt].
    rewrite Forall_forall in Hlt. apply list_elem_of_In in Hin.
    specialize (Hlt _ Hin). apply Forall_inv in Hub. lia.
  - specialize (Hall today (Z.le_refl _) Hb Hout).
    apply Forall_inv in Hall. apply Forall_inv in Hub. lia.
Qed.

Lemma getLastNBusinessDays_spec_witness :
  let dates := getLastNBusinessDays 20758 5 in
  length dates = 5%nat
  /\ StronglySorted (fun a b => b < a) dates
  /\ Forall business_day dates
  /\ Forall (fun d => d <= 20758) dates
  /\ (forall d, d <= 20758 -> business_day d -> ~ In d dates ->
      Forall (fun x => d < x) dates)
  /\ (business_day 20758 -> head dates = Some 20758).
Proof. apply (getLastNBusinessDays_spec 20758 5). lia. Defined.

(** ** Deal fetcher: rows *)

Lemma parseCSVLine_trimmed line field :
  In field (parseCSVLine line) -> trim field = field.
Proof.
  rewrite parseCSVLine_refines. unfold parseDelimitedRow.
  rewrite in_map_iff. intros (piece & <- & _). apply trim_idemp.
Qed.

Lemma truthy_true s : truthy s = true <-> s <> [].
Proof. destruct s; simpl; split; congruence. Qed.

Lemma or_default_nonempty s d : s <> [] -> or_default s d = s.
Proof. destruct s; [congruence | reflexivity]. Qed.

Lemma field_or_some fields i g d f :
  fields !! i = Some f -> g f <> [] -> field_or fields i g d = g f.
Proof.
  intros Hf Hg. unfold field_or. rewrite Hf. apply or_default_nonempty, Hg.
Qed.

Lemma field_or_truthy fields i g :
  truthy (field_or fields i g []) = true ->
  exists f, fields !! i = Some f /\ field_or fields i g [] = g f /\ g f <> [].
Proof.
  unfold field_or. destruct (fields !! i) as [f|]; [| discriminate].
  unfold or_default. destruct (g f) eqn:Hg; simpl; [discriminate |].
  intros _. exists f. rewrite Hg. repeat split; congruence.
Qed.

(** ** Deal fetcher: the call *)

Lemma downloadBhavCopy_open w date st :
  closed (controller st) = false ->
  downloadBhavCopy w date st =
  ({| controller :=
        {| queue := queue (controller st) ++ [Progress (fetching_message date)];
           closed := false |};
      console := console st ++ (fetched w date).2 |},
   Return (fetched w date).1).
Proof.
  intros Hopen. unfold downloadBhavCopy, fetched. cbv zeta.
  unfold mbind, M_bind, bind, enqueue, try_catch, await, console_log,
    console_error, console_write, ret.
  rewrite Hopen.
  destruct (fetch w _) as [[isok [body|e]]|e]; simpl;
    try destruct isok; simpl; rewrite ?app_nil_r; try reflexivity.
Qed.

(** C7. On an open stream [downloadBhavCopy] returns normally whatever the
    request does: a response that is not ok, or a body with fewer than two
    non-blank lines, gives no deal; a failed request and a body that cannot
    be read are caught, logged, and give no deal either. *)
Theorem downloadBhavCopy_never_throws (w : World) (date : Date) (st : State) :
  closed (controller st) = false ->
  let url := archive_url (formatDateForNSE date) in
  let diagnostic :=
    LogError (js "Error fetching data for " ++ formatDateForNSE date ++ js ":")
  in
  exists st' deals,
    downloadBhavCopy w date st = (st', Return deals)
    /\ closed (controller st') = false
    /\ (forall response,
          fetch w url = Return response -> ok response = false -> deals = [])
    /\ (forall response csvText,
          fetch w url = Return response -> ok response = true ->
          text response = Return csvText ->
          (length (non_blank_lines csvText) < 2)%nat -> deals = [])
    /\ (forall e,
          fetch w url = Throw e ->
          deals = [] /\ console st' = console st ++ [diagnostic e])
    /\ (forall response e,
          fetch w url = Return response -> ok response = true ->
          text response = Throw e ->
          deals = [] /\ console st' = console st ++ [diagnostic e]).
Proof.
  intros Hopen url diagnostic.
  eexists _, _. split; [apply downloadBhavCopy_open, Hopen |].
  split; [reflexivity |]. unfold fetched. fold url. simpl.
  split; [| split; [| split]].
  - intros response -> ->. reflexivity.
  - intros response csvText -> -> -> Hshort. simpl.
    unfold deals_of_text. cbv zeta. rewrite decide_True by exact Hshort.
    reflexivity.
  - intros e ->. split; reflexivity.
  - intros response e -> -> ->. split; reflexivity.
Qed.

Lemma downloadBhavCopy_never_throws_witness :
  exists st',
    downloadBhavCopy offline_world 20756 new_stream = (st', Return [])
    /\ console st'
       = [LogError (js "Error fetching data for 30102026:")
            (ErrorObject (js "fetch failed"))].
Proof.
  destruct (downloadBhavCopy_never_throws offline_world 20756 new_stream
              eq_refl) as (st' & deals & Hrun & _ & _ & _ & Hfail & _).
  destruct (Hfail (ErrorObject (js "fetch failed")) eq_refl) as [-> Hlog].
  exists st'. split; [exact Hrun |]. rewrite Hlog. vm_compute. reflexivity.
Defined.

(** C7, counterexample.  On a stream that is already closed the call
    throws, although the archive has the file of the day: the progress
    event is enqueued before the [try] block, so the error of [enqueue]
    reaches the caller. *)
Lemma downloadBhavCopy_throws_on_closed_stream :
  downloadBhavCopy (two_day_world 10) 20756
    {| controller := {| queue := []; closed := true |}; console := [] |}
  = ({| controller := {| queue := []; closed := true |}; console := [] |},
     Throw (ErrorObject (js "Invalid state: Controller is already closed"))).
Proof. reflexivity. Qed.

(** ** Aggregator *)

Lemma fold_left_Qcplus l a : fold_left Qcplus l a = (a + sum l)%Qc.
Proof.
  revert a; induction l as [|x l IH]; intros a; simpl.
  - rewrite Qcplus_0_r. reflexivity.
  - rewrite IH, Qcplus_assoc. reflexivity.
Qed.

Lemma first_seen_snoc seen l s :
  first_seen seen (l ++ [s])
  = first_seen seen l ++ (if decide (s ∈ seen ++ l) then [] else [s]).
Proof.
  revert seen; induction l as [|x l IH]; intros seen; simpl.
  - rewrite app_nil_r. destruct (decide (s ∈ seen)); reflexivity.
  - destruct (decide (x ∈ seen)) as [Hx|Hx].
    + rewrite IH. f_equal.
      destruct (decide (s ∈ seen ++ l)) as [H1|H1];
        destruct (decide (s ∈ seen ++ x :: l)) as [H2|H2]; try reflexivity;
        exfalso; set_solver.
    + simpl. rewrite IH. f_equal.
      destruct (decide (s ∈ (x :: seen) ++ l)) as [H1|H1];
        destruct (decide (s ∈ seen ++ x :: l)) as [H2|H2]; try reflexivity;
        exfalso; set_solver.
Qed.

Lemma first_seen_elem seen l s :
  s ∈ first_seen seen l <-> s ∈ l /\ s ∉ seen.
Proof.
  revert seen; induction l as [|x l IH]; intros seen; simpl.
  - set_solver.
  - destruct (decide (x ∈ seen)) as [Hx|Hx].
    + rewrite IH. set_solver.
    + rewrite elem_of_cons, IH. 
      destruct (decide (s = x)) as [->|Hne]; set_solver.
Qed.

Lemma first_seen_NoDup seen l : NoDup (first_seen seen l).
Proof.
  revert seen; induction l as [|x l IH]; intros seen; simpl.
  - constructor.
  - destruct (decide (x ∈ seen)); [apply IH |].
    constructor; [| apply IH].
    rewrite first_seen_elem. set_solver.
Qed.

Lemma map_get_keyed (f : list ascii -> Totals) keys s :
  map_get (map (fun k => (k, f k)) keys) s
  = if decide (s ∈ keys) then Some (f s) else None.
Proof.
  induction keys as [|k keys IH]; [reflexivity |].
  cbn [map map_get]. rewrite IH.
  destruct (decide (s ∈ keys)), (decide (s ∈ k :: keys)),
    (decide (k = s)) as [->|Hne]; try reflexivity; exfalso; set_solver.
Qed.

Lemma map_set_keyed (f : list ascii -> Totals) keys s v :
  NoDup keys ->
  map_set (map (fun k => (k, f k)) keys) s v
  = map (fun k => (k, if decide (k = s) then v else f k))
      (keys ++ if decide (s ∈ keys) then [] else [s]).
Proof.
  induction 1 as [|k keys Hk Hnd IH].
  - rewrite decide_False by set_solver. cbn.
    rewrite decide_True by reflexivity. reflexivity.
  - cbn [map map_set app]. destruct (decide (k = s)) as [->|Hne].
    + rewrite decide_True by set_solver. rewrite app_nil_r. f_equal.
      apply map_ext_in. intros k Hin. apply list_elem_of_In in Hin.
      rewrite decide_False by (intros ->; contradiction). reflexivity.
    + rewrite IH. f_equal. f_equal.
      destruct (decide (s ∈ keys)), (decide (s ∈ k :: keys));
        try reflexivity; exfalso; set_solver.
Qed.

Lemma totals_of_snoc deals deal s :
  totals_of (deals ++ [deal]) s
  = if decide (symbol deal = s) then
      {| sumQuantity := (sumQuantity (totals_of deals s) + quantity deal)%Qc;
         sumValue := (sumValue (totals_of deals s) + value deal)%Qc;
         count := (count (totals_of deals s) + 1)%nat |}
    else totals_of deals s.
Proof.
  unfold totals_of. cbv zeta. rewrite filter_app, filter_cons, filter_nil.
  destruct (decide (symbol deal = s)) as [Hs|Hs].
  - rewrite !map_app, !fold_left_app, length_app. reflexivity.
  - rewrite app_nil_r. reflexivity.
Qed.

Lemma totals_of_absent deals s :
  s ∉ map symbol deals ->
  totals_of deals s = {| sumQuantity := 0%Qc; sumValue := 0%Qc; count := 0 |}.
Proof.
  intros Hs. unfold totals_of. cbv zeta.
  replace (filter (fun deal => symbol deal = s) deals) with (@nil Deal);
    [reflexivity |].
  symmetry. induction deals as [|d deals IH]; [reflexivity |].
  rewrite filter_cons. simpl in Hs. apply not_elem_of_cons in Hs as [Hd Hs].
  rewrite decide_False by congruence. apply IH, Hs.
Qed.

Lemma stock_map_spec deals :
  fold_left accumulate deals []
  = map (fun s => (s, totals_of deals s)) (first_seen [] (map symbol deals)).
Proof.
  induction deals as [|deal deals IH] using rev_ind; [reflexivity |].
  rewrite fold_left_app. cbn [fold_left]. rewrite IH. unfold accumulate.
  rewrite map_get_keyed, map_set_keyed by apply first_seen_NoDup.
  rewrite (map_app symbol deals [deal]). cbn [map].
  rewrite first_seen_snoc. cbn [app].
  assert (Hex : default {| sumQuantity := 0%Qc; sumValue := 0%Qc; count := 0 |}
                  (if decide (symbol deal ∈ first_seen [] (map symbol deals))
                   then Some (totals_of deals (symbol deal)) else None)
                = totals_of deals (symbol deal)).
  { destruct (decide _) as [Hin|Hout]; [reflexivity |].
    simpl. symmetry. apply totals_of_absent.
    rewrite first_seen_elem in Hout. set_solver. }
  rewrite Hex.
  assert (Hkeys : (if decide (symbol deal ∈ first_seen [] (map symbol deals))
                   then [] else [symbol deal])
                  = (if decide (symbol deal ∈ map symbol deals)
                     then [] else [symbol deal])).
  { destruct (decide (symbol deal ∈ first_seen [] (map symbol deals))) as [H1|H1],
      (decide (symbol deal ∈ map symbol deals)) as [H2|H2]; try reflexivity;
      rewrite first_seen_elem in H1; exfalso; set_solver. }
  rewrite Hkeys. apply map_ext. intros k.
  rewrite totals_of_snoc.
  destruct (decide (k = symbol deal)) as [->|Hne].
  - rewrite decide_True by reflexivity. reflexivity.
  - rewrite decide_False by congruence. reflexivity.
Qed.

Lemma to_result_totals deals s :
  to_result (s, totals_of deals s) = accumulation deals s.
Proof.
  unfold to_result, totals_of, accumulation. cbn.
  rewrite !fold_left_Qcplus, !Qcplus_0_l. reflexivity.
Qed.

Lemma results_spec allDeals :
  map to_result
    (fold_left accumulate (filter (fun deal => qualifies deal = true) allDeals) [])
  = accumulations allDeals.
Proof.
  unfold accumulations. cbv zeta.
  replace (filter (fun deal => qualifies deal = true) allDeals)
    with (filter
            (fun deal =>
               dealType deal = js "BUY"
               /\ isInstitutional (clientName deal) = true) allDeals).
  - rewrite stock_map_spec, map_map. apply map_ext. intros s.
    apply to_result_totals.
  - apply list_filter_iff. intros deal. unfold qualifies.
    rewrite andb_true_iff, bool_decide_eq_true. reflexivity.
Qed.


Lemma sort_insert_Permutation x l :
  Permutation (sort_insert compareFn x l) (x :: l).
Proof.
  induction l as [|y l IH]; simpl; [reflexivity |].
  destruct (bool_decide _); [| reflexivity].
  rewrite IH. apply perm_swap.
Qed.

Lemma sort_Permutation l : Permutation (sort compareFn l) l.
Proof.
  induction l as [|x l IH]; simpl; [reflexivity |].
  rewrite sort_insert_Permutation, IH. reflexivity.
Qed.




Lemma analyzeAccumulation_subset allDeals a :
  a ∈ analyzeAccumulation allDeals -> a ∈ accumulations allDeals.
Proof.
  unfold analyzeAccumulation. cbv zeta. rewrite results_spec.
  intros Hin. apply subseteq_take in Hin.
  rewrite sort_Permutation in Hin. exact Hin.
Qed.



(** C10. The symbols of the entries of the result are pairwise distinct. *)
Theorem analyzeAccumulation_distinct_symbols (allDeals : list Deal) :
  NoDup (map acc_symbol (analyzeAccumulation allDeals)).
Proof.
  unfold analyzeAccumulation. cbv zeta. rewrite results_spec.
  change (map acc_symbol) with (fmap (M:=list) acc_symbol).
  rewrite fmap_take.
  eapply sublist_NoDup; [| apply sublist_take].
  rewrite sort_Permutation. unfold accumulations. cbv zeta.
  change (fmap (M:=list) acc_symbol) with (map acc_symbol).
  rewrite map_map, map_id. apply first_seen_NoDup.
Qed.

(** ** Orchestrator *)









Lemma getLastNBusinessDays_length today n :
  length (getLastNBusinessDays today n) = n.
Proof.
  unfold getLastNBusinessDays.
  destruct (business_days_loop_spec n 0 today []) as (new & -> & Hlen & _);
    [lia |].
  simpl. lia.
Qed.





(** * Further properties *)

(** ** Institutional classifier *)

Lemma upper_char_idemp c : upper_char (upper_char c) = upper_char c.
Proof. destruct c as [[] [] [] [] [] [] [] []]; reflexivity. Qed.

Lemma toUpperCase_idemp s : toUpperCase (toUpperCase s) = toUpperCase s.
Proof.
  unfold toUpperCase. rewrite map_map. apply map_ext. apply upper_char_idemp.
Qed.

Lemma isInstitutional_true name :
  isInstitutional name = true <->
  exists keyword,
    In keyword INSTITUTIONAL_KEYWORDS /\ substring keyword (toUpperCase name).
Proof.
  unfold isInstitutional. cbv zeta. rewrite existsb_exists.
  split; intros (keyword & Hin & Hk); exists keyword; split; try exact Hin;
    apply includes_spec; exact Hk.
Qed.

(** X1. A name that contains an institutional name is institutional: the
    match is on substrings, whatever surrounds them. *)
Theorem isInstitutional_embedded (before name after : list ascii) :
  isInstitutional name = true ->
  isInstitutional (before ++ name ++ after) = true.
Proof.
  rewrite !isInstitutional_true. intros (keyword & Hin & pre & post & Hk).
  exists keyword. split; [exact Hin |].
  exists (toUpperCase before ++ pre), (post ++ toUpperCase after).
  unfold toUpperCase in *. rewrite !map_app, Hk, <- !app_assoc. reflexivity.
Qed.

Lemma isInstitutional_embedded_witness :
  isInstitutional (js "Mr " ++ js "fund" ++ js "amental traders") = true.
Proof. apply isInstitutional_embedded. reflexivity. Defined.

(** X2. The classification does not depend on letter case: two names
    that are equal once upper-cased, character by character, are classified
    alike. *)
Theorem isInstitutional_case_insensitive (name1 name2 : list ascii) :
  Forall2 (fun c d => upper_char c = upper_char d) name1 name2 ->
  isInstitutional name1 = isInstitutional name2.
Proof.
  intros Hsame. unfold isInstitutional. cbv zeta.
  replace (toUpperCase name2) with (toUpperCase name1); [reflexivity |].
  unfold toUpperCase. induction Hsame as [|c d l1 l2 Hcd _ IH]; simpl;
    congruence.
Qed.

Lemma isInstitutional_case_insensitive_witness :
  isInstitutional (js "Abc Bank") = isInstitutional (js "aBC bANK").
Proof.
  apply isInstitutional_case_insensitive. repeat constructor.
Defined.

(** ** Row parser *)

Lemma trimStart_app_space s ws :
  Forall (fun c => is_space c = true) ws ->
  trimStart (s ++ ws) = trimStart s
  \/ (trimStart s <> [] /\ trimStart (s ++ ws) = trimStart s ++ ws).
Proof.
  intros Hws. induction s as [|c s IH]; simpl.
  - left. induction Hws as [|d ws Hd _ IH]; simpl; [reflexivity |].
    rewrite Hd. exact IH.
  - destruct (is_space c); [exact IH |]. right. split; [discriminate | reflexivity].
Qed.

Lemma trimStart_spaces_app ws s :
  Forall (fun c => is_space c = true) ws -> trimStart (ws ++ s) = trimStart s.
Proof.
  induction 1 as [|d ws Hd _ IH]; simpl; [reflexivity |]. rewrite Hd. exact IH.
Qed.

Lemma trimEnd_app_space s ws :
  Forall (fun c => is_space c = true) ws -> trimEnd (s ++ ws) = trimEnd s.
Proof.
  intros Hws. unfold trimEnd. rewrite reverse_app.
  rewrite trimStart_spaces_app by (apply Forall_reverse; exact Hws).
  reflexivity.
Qed.

Lemma trim_app_space s ws :
  Forall (fun c => is_space c = true) ws -> trim (s ++ ws) = trim s.
Proof.
  intros Hws. unfold trim.
  destruct (trimStart_app_space s ws Hws) as [-> | [_ ->]]; [reflexivity |].
  apply trimEnd_app_space, Hws.
Qed.

Lemma csv_step_quote st :
  csv_step st quote
  = {| result := result st; current := current st;
       inQuotes := negb (inQuotes st) |}.
Proof. unfold csv_step. rewrite decide_True by reflexivity. reflexivity. Qed.

Lemma csv_step_comma st :
  inQuotes st = false ->
  csv_step st ","%char
  = {| result := result st ++ [trim (current st)]; current := [];
       inQuotes := false |}.
Proof.
  intros Hq. unfold csv_step. rewrite decide_False by discriminate.
  rewrite Hq, bool_decide_eq_true_2 by reflexivity. reflexivity.
Qed.

Lemma csv_step_content st c :
  c <> quote -> c <> ","%char \/ inQuotes st = true ->
  csv_step st c
  = {| result := result st; current := current st ++ [c];
       inQuotes := inQuotes st |}.
Proof.
  intros Hc Hor. unfold csv_step. rewrite decide_False by exact Hc.
  destruct Hor as [Hcomma | Hq].
  - rewrite bool_decide_eq_false_2 by exact Hcomma. reflexivity.
  - rewrite Hq, andb_false_r. reflexivity.
Qed.

(** The loop of [parseCSVLine] adds to the fields it starts with. *)
Lemma csv_loop_result l : forall st,
  fold_left csv_step l st
  = let st' :=
      fold_left csv_step l
        {| result := []; current := current st; inQuotes := inQuotes st |} in
    {| result := result st ++ result st'; current := current st';
       inQuotes := inQuotes st' |}.
Proof.
  induction l as [|c l IH]; intros st; cbn [fold_left].
  - cbv zeta. cbn. rewrite app_nil_r. destruct st; reflexivity.
  - rewrite IH. cbv zeta.
    rewrite (IH (csv_step {| result := []; current := current st;
                             inQuotes := inQuotes st |} c)).
    cbv zeta. unfold csv_step. cbn.
    destruct (decide (c = quote)); cbn; [reflexivity |].
    destruct (bool_decide (c = ","%char) && negb (inQuotes st)); cbn;
      rewrite <- ?app_assoc; reflexivity.
Qed.

(** The quoting mode at the end of the loop is the parity of the quotes. *)
Lemma csv_loop_inQuotes l : forall st,
  inQuotes (fold_left csv_step l st)
  = xorb (inQuotes st) (Nat.odd (length (filter (fun c => c = quote) l))).
Proof.
  induction l as [|c l IH]; intros st; cbn [fold_left].
  - simpl. rewrite xorb_false_r. reflexivity.
  - rewrite IH, filter_cons. unfold csv_step.
    destruct (decide (c = quote)); cbn [inQuotes length].
    + rewrite Nat.odd_succ, <- Nat.negb_odd.
      destruct (inQuotes st), (Nat.odd _); reflexivity.
    + destruct (bool_decide (c = ","%char) && negb (inQuotes st)); reflexivity.
Qed.

(** X3. A comma outside the quoted spans separates two rows' worth of
    fields: when the quotes before it are balanced, the fields of the line
    are those of the part before the comma followed by those of the part
    after it. *)
Theorem parseCSVLine_at_unquoted_comma (before after : list ascii) :
  Nat.even (length (filter (fun c => c = quote) before)) = true ->
  parseCSVLine (before ++ ","%char :: after)
  = parseCSVLine before ++ parseCSVLine after.
Proof.
  intros Heven. unfold parseCSVLine. cbv zeta.
  rewrite fold_left_app. cbn [fold_left].
  set (init := {| result := []; current := []; inQuotes := false |}).
  assert (Hq : inQuotes (fold_left csv_step before init) = false).
  { rewrite csv_loop_inQuotes. rewrite <- Nat.negb_even, Heven. reflexivity. }
  assert (Hstep : csv_step (fold_left csv_step before init) ","%char
                  = {| result := result (fold_left csv_step before init)
                                 ++ [trim (current (fold_left csv_step before init))];
                       current := []; inQuotes := false |}).
  { rewrite csv_step_comma by exact Hq. reflexivity. }
  rewrite Hstep, csv_loop_result. cbv zeta. cbn [result current inQuotes].
  fold init. rewrite <- !app_assoc. reflexivity.
Qed.

Lemma parseCSVLine_at_unquoted_comma_witness :
  parseCSVLine (js "a," ++ quoted "b,c" ++ ","%char :: js "d")
  = parseCSVLine (js "a," ++ quoted "b,c") ++ parseCSVLine (js "d").
Proof.
  apply (parseCSVLine_at_unquoted_comma (js "a," ++ quoted "b,c") (js "d")).
  reflexivity.
Defined.

(** X4. A quoted span is one field whatever commas it holds: a line that
    is a quote, a text without quotes and a quote parses to the trimmed
    text alone. *)
Theorem parseCSVLine_quoted_field (content : list ascii) :
  ~ In quote content ->
  parseCSVLine (quote :: content ++ [quote]) = [trim content].
Proof.
  intros Hnq. unfold parseCSVLine. cbv zeta. cbn [fold_left].
  rewrite fold_left_app. cbn [fold_left].
  assert (H : forall l cur,
            ~ In quote l ->
            fold_left csv_step l
              {| result := []; current := cur; inQuotes := true |}
            = {| result := []; current := cur ++ l; inQuotes := true |}).
  { induction l as [|c l IH]; intros cur Hl; cbn [fold_left].
    - rewrite app_nil_r. reflexivity.
    - rewrite csv_step_content;
        [| intros ->; apply Hl; left; reflexivity | right; reflexivity].
      cbn [result current inQuotes].
      rewrite IH by (intros Hin; apply Hl; right; exact Hin).
      rewrite <- app_assoc. reflexivity. }
  rewrite !csv_step_quote. cbn [result current inQuotes negb].
  rewrite H by exact Hnq. reflexivity.
Qed.

Lemma parseCSVLine_quoted_field_witness :
  parseCSVLine (quote :: js " 1,000 " ++ [quote]) = [trim (js " 1,000 ")].
Proof.
  apply parseCSVLine_quoted_field. vm_compute. intuition discriminate.
Defined.

(** X5. Without quotes the parser is the plain split at the commas, every
    piece trimmed. *)
Theorem parseCSVLine_without_quotes (line : list ascii) :
  ~ In quote line ->
  parseCSVLine line = map trim (split ","%char line).
Proof.
  intros Hnq. unfold parseCSVLine. cbv zeta.
  assert (H : forall l cur,
            ~ In quote l ->
            let st := fold_left csv_step l
                        {| result := []; current := cur; inQuotes := false |} in
            result st ++ [trim (current st)]
            = match split ","%char l with
              | piece :: pieces => trim (cur ++ piece) :: map trim pieces
              | [] => []
              end).
  { induction l as [|c l IH]; intros cur Hl; cbn [fold_left split].
    - cbn. rewrite app_nil_r. reflexivity.
    - cbv zeta.
      assert (Hc : c <> quote) by (intros ->; apply Hl; left; reflexivity).
      assert (Hl' : ~ In quote l) by (intros Hin; apply Hl; right; exact Hin).
      destruct (decide (c = ","%char)) as [->|Hcomma].
      + rewrite csv_step_comma by reflexivity.
        rewrite csv_loop_result. cbv zeta. cbn [result current inQuotes].
        rewrite <- app_assoc. specialize (IH [] Hl'). cbv zeta in IH.
        rewrite IH. rewrite app_nil_r.
        destruct (split ","%char l); reflexivity.
      + rewrite csv_step_content by (try left; assumption).
        cbn [result current inQuotes].
        specialize (IH (cur ++ [c]) Hl'). cbv zeta in IH. rewrite IH.
        destruct (split ","%char l) as [|piece pieces] eqn:Hs.
        * destruct l; simpl in Hs; [discriminate |].
          destruct (decide _); [discriminate |].
          destruct (split _ _); discriminate.
        * rewrite <- app_assoc. reflexivity. }
  specialize (H line [] Hnq). cbv zeta in H. rewrite H.
  destruct (split ","%char line); reflexivity.
Qed.

Lemma parseCSVLine_without_quotes_witness :
  parseCSVLine (js "a , b,,c") = map trim (split ","%char (js "a , b,,c")).
Proof.
  apply parseCSVLine_without_quotes. vm_compute. intuition discriminate.
Defined.

(** X6. White space at the end of a line is ignored, so a file with CRLF
    line ends gives the same fields, and the same deals, as with LF. *)
Theorem parseCSVLine_trailing_space (date : Date) (line spaces : list ascii) :
  Forall (fun c => is_space c = true) spaces ->
  parseCSVLine (line ++ spaces) = parseCSVLine line
  /\ deal_of_line date (line ++ spaces) = deal_of_line date line.
Proof.
  intros Hws.
  assert (Hp : parseCSVLine (line ++ spaces) = parseCSVLine line).
  { unfold parseCSVLine. cbv zeta. rewrite fold_left_app.
    assert (H : forall st,
              fold_left csv_step spaces st
              = {| result := result st; current := current st ++ spaces;
                   inQuotes := inQuotes st |}).
    { induction Hws as [|c ws Hc _ IH]; intros st; cbn [fold_left].
      - rewrite app_nil_r. destruct st; reflexivity.
      - rewrite IH.
        rewrite csv_step_content
          by (try left; intros ->; discriminate).
        cbn. rewrite <- app_assoc. reflexivity. }
    rewrite H. cbn [result current]. rewrite trim_app_space by exact Hws.
    reflexivity. }
  split; [exact Hp |]. unfold deal_of_line. rewrite Hp. reflexivity.
Qed.

Lemma parseCSVLine_trailing_space_witness :
  parseCSVLine (js "a,b" ++ ["013"%char]) = parseCSVLine (js "a,b")
  /\ deal_of_line 0 (js "a,b" ++ ["013"%char]) = deal_of_line 0 (js "a,b").
Proof.
  apply parseCSVLine_trailing_space. repeat constructor.
Defined.

Lemma length_omap_le {A B} (f : A -> option B) l :
  (length (omap f l) <= length l)%nat.
Proof.
  induction l as [|x l IH]; csimpl; [lia |].
  destruct (f x); csimpl; lia.
Qed.

(** ** Aggregator *)

Lemma analyzeAccumulation_unfold allDeals :
  analyzeAccumulation allDeals
  = take 10 (sort compareFn (accumulations allDeals)).
Proof. unfold analyzeAccumulation. cbv zeta. rewrite results_spec. reflexivity. Qed.

(** An entry of the result is the accumulation of the symbol of some
    qualifying deal. *)
Lemma analyzeAccumulation_entry allDeals a :
  a ∈ analyzeAccumulation allDeals ->
  exists deal,
    deal ∈ filter (fun d => qualifies d = true) allDeals
    /\ a = accumulation (filter (fun d => qualifies d = true) allDeals)
             (symbol deal).
Proof.
  intros Ha. apply analyzeAccumulation_subset in Ha.
  unfold accumulations in Ha. cbv zeta in Ha.
  replace (filter _ allDeals)
    with (filter (fun d => qualifies d = true) allDeals) in Ha.
  - apply list_elem_of_fmap in Ha as (s & -> & Hs).
    apply first_seen_elem in Hs as [Hs _].
    apply list_elem_of_fmap in Hs as (deal & -> & Hdeal). eauto.
  - apply list_filter_iff. intros deal. unfold qualifies.
    rewrite andb_true_iff, bool_decide_eq_true. reflexivity.
Qed.

(** X8. Deals that are not institutional BUY deals never influence the
    result, wherever they stand in the input. *)
Theorem analyzeAccumulation_ignores_other_deals
    (before others after : list Deal) :
  Forall (fun deal => qualifies deal = false) others ->
  analyzeAccumulation (before ++ others ++ after)
  = analyzeAccumulation (before ++ after).
Proof.
  intros Hothers. unfold analyzeAccumulation. cbv zeta.
  rewrite !filter_app.
  replace (filter (fun deal => qualifies deal = true) others) with (@nil Deal);
    [reflexivity |].
  symmetry. induction Hothers as [|d l Hd _ IH]; [reflexivity |].
  rewrite filter_cons, decide_False by congruence. exact IH.
Qed.

Lemma analyzeAccumulation_ignores_other_deals_witness :
  analyzeAccumulation
    ([example_deal "TCS" "ABC BANK LTD" 50 20]
     ++ [example_deal "INFY" "RAJESH KUMAR SHARMA" 10 5]
     ++ [example_deal "TCS" "XYZ MUTUAL FUND" 100 10])
  = analyzeAccumulation
      ([example_deal "TCS" "ABC BANK LTD" 50 20]
       ++ [example_deal "TCS" "XYZ MUTUAL FUND" 100 10]).
Proof.
  apply analyzeAccumulation_ignores_other_deals.
  repeat constructor.
Defined.

Lemma sum_app l1 l2 : sum (l1 ++ l2) = (sum l1 + sum l2)%Qc.
Proof.
  induction l1 as [|x l1 IH]; simpl.
  - rewrite Qcplus_0_l. reflexivity.
  - rewrite IH, Qcplus_assoc. reflexivity.
Qed.

Lemma count_by_symbol keys (deals : list Deal) :
  NoDup keys ->
  (forall deal, deal ∈ deals -> symbol deal ∈ keys) ->
  sum_list (map (fun s => length (filter (fun d => symbol d = s) deals)) keys)
  = length deals.
Proof.
  intros Hnd. induction deals as [|deal deals IH]; intros Hcover.
  - clear Hcover. induction Hnd as [|k keys _ _ IHk]; simpl in *;
      [reflexivity | exact IHk].
  - simpl. rewrite <- IH by (intros d Hd; apply Hcover; set_solver).
    assert (Hk : symbol deal ∈ keys) by (apply Hcover; set_solver).
    clear IH Hcover. revert Hk.
    induction Hnd as [|k keys Hk' Hnd IHk]; intros Hk; [set_solver |].
    simpl. rewrite filter_cons.
    destruct (decide (symbol deal = k)) as [Heq|Hne].
    + simpl. f_equal. f_equal.
      apply (f_equal sum_list). apply map_ext_in. intros s Hs.
      rewrite filter_cons, decide_False; [reflexivity |].
      intros Heq'. apply Hk'. rewrite <- Heq, Heq'.
      apply list_elem_of_In, Hs.
    + rewrite IHk by set_solver. lia.
Qed.

Lemma accumulations_qualifying allDeals :
  accumulations allDeals
  = map (accumulation (filter (fun d => qualifies d = true) allDeals))
      (first_seen []
         (map symbol (filter (fun d => qualifies d = true) allDeals))).
Proof.
  unfold accumulations. cbv zeta.
  replace (filter (fun d => qualifies d = true) allDeals)
    with (filter
            (fun deal =>
               dealType deal = js "BUY"
               /\ isInstitutional (clientName deal) = true) allDeals);
    [reflexivity |].
  apply list_filter_iff. intros deal. unfold qualifies.
  rewrite andb_true_iff, bool_decide_eq_true. reflexivity.
Qed.

Lemma sum_list_take_le n (l : list nat) :
  (sum_list (take n l) <= sum_list l)%nat.
Proof.
  revert n; induction l as [|x l IH]; intros [|n]; simpl; try lia.
  specialize (IH n). lia.
Qed.

Lemma first_seen_covers (deals : list Deal) deal :
  deal ∈ deals -> symbol deal ∈ first_seen [] (map symbol deals).
Proof.
  intros Hin. apply first_seen_elem. split; [| set_solver].
  apply list_elem_of_fmap. eauto.
Qed.

(** X9. The entries account for the qualifying deals: every entry counts
    exactly the qualifying deals of its symbol, the transaction counts of
    the result never add up to more than the number of qualifying deals
    and, when at most ten symbols qualify, they add up to it: no deal is
    lost and none is counted twice. *)
Theorem analyzeAccumulation_counts_qualifying_deals (allDeals : list Deal) :
  let qualifying := filter (fun deal => qualifies deal = true) allDeals in
  let entries := analyzeAccumulation allDeals in
  Forall
    (fun entry =>
       transactions entry
       = length (filter (fun deal => symbol deal = acc_symbol entry) qualifying))
    entries
  /\ (sum_list (map transactions entries) <= length qualifying)%nat
  /\ ((length (accumulations allDeals) <= 10)%nat ->
      sum_list (map transactions entries) = length qualifying).
Proof.
  intros qualifying entries.
  set (keys := first_seen [] (map symbol qualifying)).
  assert (Hacc : accumulations allDeals = map (accumulation qualifying) keys)
    by apply accumulations_qualifying.
  assert (Hnd : NoDup keys) by apply first_seen_NoDup.
  assert (Hcover : forall deal, deal ∈ qualifying -> symbol deal ∈ keys)
    by (intros deal; apply first_seen_covers).
  assert (Hcount : sum_list (map transactions (accumulations allDeals))
                   = length qualifying).
  { rewrite Hacc, map_map. cbn. apply count_by_symbol; assumption. }
  assert (Hperm : Permutation (sort compareFn (accumulations allDeals))
                    (accumulations allDeals)) by apply sort_Permutation.
  split.
  { apply Forall_forall. intros entry Hentry.
    apply analyzeAccumulation_entry in Hentry as (deal & _ & ->).
    reflexivity. }
  unfold entries. rewrite analyzeAccumulation_unfold. split.
  - rewrite <- Hcount.
    change (map transactions) with (fmap (M:=list) transactions).
    rewrite fmap_take.
    etransitivity; [apply sum_list_take_le |].
    rewrite Hperm. reflexivity.
  - intros Hfew.
    rewrite take_ge
      by (rewrite (Permutation_length Hperm); exact Hfew).
    rewrite <- Hcount.
    change (map transactions) with (fmap (M:=list) transactions).
    rewrite Hperm. reflexivity.
Qed.

Lemma analyzeAccumulation_counts_qualifying_deals_witness :
  sum_list (map transactions (analyzeAccumulation tcs_deals)) = 2%nat.
Proof.
  destruct (analyzeAccumulation_counts_qualifying_deals tcs_deals)
    as (_ & _ & H).
  rewrite H; [reflexivity | vm_compute; lia].
Defined.



(** ** Orchestrator *)

(** The loop over the days on an open stream, in full: the events, the
    console and the outcome. *)
Lemma fetch_days_run w dates : forall allDeals st,
  closed (controller st) = false ->
  fetch_days w dates allDeals st
  = ({| controller :=
          {| queue := queue (controller st) ++ day_events (visited_days w dates);
             closed := false |};
        console :=
          console st
          ++ concat (map (fun day => (fetched w day).2) (visited_days w dates)) |},
     if decide (Exists (fun day =>
                          (max_arguments w < length (fetched w day).1)%nat)
                  dates)
     then Throw too_many_arguments
     else Return (allDeals ++ concat (map (fun day => (fetched w day).1) dates))).
Proof.
  induction dates as [|day rest IH]; intros allDeals st Hopen.
  - cbn. rewrite !app_nil_r. rewrite decide_False by (intros H; inversion H).
    destruct st as [[q c] l]. cbn in *. subst c. reflexivity.
  - cbn [fetch_days visited_days]. unfold mbind, M_bind, bind.
    rewrite downloadBhavCopy_open by exact Hopen. unfold push_all.
    destruct (decide (max_arguments w < length (fetched w day).1)%nat)
      as [Hbig|Hfit].
    + rewrite decide_True by (left; exact Hbig).
      cbn. rewrite app_nil_r. reflexivity.
    + unfold ret at 1. rewrite IH by reflexivity. cbn.
      rewrite <- !app_assoc. f_equal.
      destruct (decide (Exists _ rest)) as [Hex|Hnex].
      * rewrite decide_True by (right; exact Hex). reflexivity.
      * rewrite decide_False
          by (intros Hex; inversion Hex; subst; contradiction).
        reflexivity.
Qed.

Lemma visited_days_all w dates :
  ~ Exists (fun day => (max_arguments w < length (fetched w day).1)%nat) dates ->
  visited_days w dates = dates.
Proof.
  induction dates as [|day rest IH]; intros Hnex; [reflexivity |].
  cbn. rewrite decide_False by (intros H; apply Hnex; left; exact H).
  rewrite IH by (intros H; apply Hnex; right; exact H). reflexivity.
Qed.

(** A run from an open stream, in full. *)
Lemma start_run w n st :
  closed (controller st) = false ->
  let dates := getLastNBusinessDays (today w) n in
  let allDeals := concat (map (fun day => (fetched w day).1) dates) in
  start w n st
  = ({| controller :=
          {| queue :=
               queue (controller st) ++ day_events (visited_days w dates)
               ++ (if decide (Exists (fun day =>
                                        (max_arguments w
                                         < length (fetched w day).1)%nat) dates)
                   then [Error (error_message too_many_arguments)]
                   else [Progress (analyzing_message allDeals);
                         Result (analyzeAccumulation allDeals)]);
             closed := true |};
        console :=
          console st
          ++ concat (map (fun day => (fetched w day).2) (visited_days w dates)) |},
     Return tt).
Proof.
  intros Hopen dates allDeals. unfold start. fold dates.
  unfold try_catch, mbind, M_bind, bind.
  rewrite fetch_days_run by exact Hopen.
  destruct (decide (Exists _ dates)); unfold enqueue, close; cbn;
    rewrite <- ?app_assoc; reflexivity.
Qed.

(** X12. The [start] callback never throws on an open stream: whatever the
    archive answers it returns normally and leaves the stream closed.  On
    a stream that is already closed it throws instead, the error handler
    failing like the rest, and [downloadBhavCopy] throws before it fetches
    anything: nothing is added to the stream or to the console. *)
Theorem start_returns_and_closes (w : World) (n : nat) (st : State) :
  (closed (controller st) = false ->
   exists st', start w n st = (st', Return tt)
               /\ closed (controller st') = true)
  /\ (closed (controller st) = true ->
      start w n st = (st, Throw already_closed)
      /\ forall day, downloadBhavCopy w day st = (st, Throw already_closed)).
Proof.
  split; intros Hstate.
  - eexists. split; [apply start_run, Hstate | reflexivity].
  - assert (Hd : forall day,
              downloadBhavCopy w day st = (st, Throw already_closed)).
    { intros day. unfold downloadBhavCopy, mbind, M_bind, bind, enqueue.
      rewrite Hstate. reflexivity. }
    split; [| exact Hd].
    unfold start, try_catch, mbind, M_bind, bind.
    destruct (getLastNBusinessDays (today w) n) as [|day rest];
      cbn [fetch_days].
    + unfold ret, enqueue. cbn. repeat (rewrite Hstate; cbn). reflexivity.
    + unfold mbind, M_bind, bind. rewrite Hd.
      unfold enqueue. repeat (rewrite Hstate; cbn). reflexivity.
Qed.

Lemma start_returns_and_closes_witness :
  exists st',
    start offline_world 5 new_stream = (st', Return tt)
    /\ closed (controller st') = true
    /\ start offline_world 5 st' = (st', Throw already_closed).
Proof.
  destruct (proj1 (start_returns_and_closes offline_world 5 new_stream) eq_refl)
    as (st' & Hrun & Hclosed).
  exists st'. split; [exact Hrun |]. split; [exact Hclosed |].
  apply (proj2 (start_returns_and_closes offline_world 5 st') Hclosed).
Defined.


(** X14. Failed requests are silent: when every request is refused or
    fails, the run still ends with a Result event, carrying the empty
    ranking, after a summary of zero transactions; the only trace of the
    failures is one console entry per day. *)
Theorem start_without_data (w : World) (n : nat) :
  (forall url, match fetch w url with
               | Return response => ok response = false
               | Throw _ => True
               end) ->
  let dates := getLastNBusinessDays (today w) n in
  let final := (start w n new_stream).1 in
  controller final
  = {| queue :=
         day_events dates
         ++ [Progress (js "Analyzing 0 transactions from institutional investors...");
             Result []];
       closed := true |}
  /\ length (console final) = n.
Proof.
  intros Hfail dates final.
  assert (Hnone : forall day, (fetched w day).1 = []
                              /\ length (fetched w day).2 = 1%nat).
  { intros day. unfold fetched. specialize (Hfail (archive_url (formatDateForNSE day))).
    destruct (fetch w _) as [response|e]; [rewrite Hfail |]; split; reflexivity. }
  assert (Hnex : ~ Exists (fun day =>
                             (max_arguments w < length (fetched w day).1)%nat)
                     dates).
  { intros Hex. apply Exists_exists in Hex as (day & _ & Hbig).
    rewrite (proj1 (Hnone day)) in Hbig. cbn in Hbig. lia. }
  assert (Hall : forall l, concat (map (fun day => (fetched w day).1) l) = []).
  { induction l as [|day rest IH]; [reflexivity |].
    cbn. rewrite (proj1 (Hnone day)). exact IH. }
  assert (Hlog : forall l,
            length (concat (map (fun day => (fetched w day).2) l)) = length l).
  { induction l as [|day rest IH]; [reflexivity |].
    cbn. rewrite length_app, (proj2 (Hnone day)), IH. reflexivity. }
  unfold final. rewrite start_run by reflexivity. fold dates.
  rewrite decide_False by exact Hnex. rewrite (visited_days_all _ _ Hnex), Hall.
  split; [reflexivity |].
  cbn. rewrite Hlog. apply getLastNBusinessDays_length.
Qed.

Lemma start_without_data_witness :
  controller (start offline_world 5 new_stream).1
  = {| queue :=
         day_events (getLastNBusinessDays 20758 5)
         ++ [Progress (js "Analyzing 0 transactions from institutional investors...");
             Result []];
       closed := true |}
  /\ length (console (start offline_world 5 new_stream).1) = 5%nat.
Proof. apply (start_without_data offline_world 5). intros url. exact I. Defined.

(** ** Business-day calendar *)

Lemma getLastNBusinessDays_recent today n :
  recent_business_days today (getLastNBusinessDays today n).
Proof.
  unfold getLastNBusinessDays.
  destruct (business_days_loop_spec n 0 today [])
    as (new & -> & _ & Hbus & Hub & Hsort & Hall); [lia |].
  simpl. repeat split; assumption.
Qed.

(** Two lists of most recent business days agree as far as the shorter
    one goes. *)
Lemma recent_business_days_prefix l1 : forall today l2,
  recent_business_days today l1 -> recent_business_days today l2 ->
  (length l1 <= length l2)%nat -> l1 = take (length l1) l2.
Proof.
  induction l1 as [|a l1 IH]; intros today l2 H1 H2 Hlen; [reflexivity |].
  destruct l2 as [|b l2]; [simpl in Hlen; lia |].
  destruct H1 as (Hs1 & Hb1 & Hu1 & Hc1), H2 as (Hs2 & Hb2 & Hu2 & Hc2).
  apply StronglySorted_inv in Hs1 as [Hs1 Ha].
  apply StronglySorted_inv in Hs2 as [Hs2 Hb].
  assert (Hab : a <= b).
  { destruct (in_dec Z.eq_dec a (b :: l2)) as [[->|Hin]|Hout].
    - lia.
    - rewrite Forall_forall in Hb. apply list_elem_of_In in Hin.
      specialize (Hb _ Hin). lia.
    - specialize (Hc2 a (Forall_inv Hu1) (Forall_inv Hb1) Hout).
      apply Forall_inv in Hc2. lia. }
  assert (Hba : b <= a).
  { destruct (in_dec Z.eq_dec b (a :: l1)) as [[->|Hin]|Hout].
    - lia.
    - rewrite Forall_forall in Ha. apply list_elem_of_In in Hin.
      specialize (Ha _ Hin). lia.
    - specialize (Hc1 b (Forall_inv Hu2) (Forall_inv Hb2) Hout).
      apply Forall_inv in Hc1. lia. }
  assert (b = a) by lia. subst b. cbn. f_equal.
  apply (IH (a - 1)); [| | simpl in Hlen; lia].
  - repeat split; [exact Hs1 | exact (Forall_inv_tail Hb1) | |].
    + eapply Forall_impl; [exact Ha |]. cbn. intros; lia.
    + intros d Hd Hbd Hnot.
      assert (Hall : Forall (fun x => d < x) (a :: l1)).
      { apply Hc1; [apply Forall_inv in Hu1; lia | exact Hbd |].
        intros [-> | Hin]; [lia | contradiction]. }
      exact (Forall_inv_tail Hall).
  - repeat split; [exact Hs2 | exact (Forall_inv_tail Hb2) | |].
    + eapply Forall_impl; [exact Hb |]. cbn. intros; lia.
    + intros d Hd Hbd Hnot.
      assert (Hall : Forall (fun x => d < x) (a :: l2)).
      { apply Hc2; [apply Forall_inv in Hu2; lia | exact Hbd |].
        intros [-> | Hin]; [lia | contradiction]. }
      exact (Forall_inv_tail Hall).
Qed.

(** X16. A longer window extends a shorter one: the dates for [n] days
    are the first [n] of the dates for [n + m] days; in particular a window
    of no day is empty. *)
Theorem getLastNBusinessDays_extends (today : Date) (n m : nat) :
  getLastNBusinessDays today n = take n (getLastNBusinessDays today (n + m))
  /\ getLastNBusinessDays today 0 = [].
Proof.
  split.
  - rewrite <- (getLastNBusinessDays_length today n) at 2.
    apply (recent_business_days_prefix _ today);
      [apply getLastNBusinessDays_recent.. |].
    rewrite !getLastNBusinessDays_length. lia.
  - pose proof (getLastNBusinessDays_length today 0) as H.
    destruct (getLastNBusinessDays today 0); [reflexivity | discriminate].
Qed.

(** Between two dates that follow each other in the list, and between the
    first date and today, every day is a Saturday or a Sunday. *)
Lemma recent_business_days_between today pre a post d :
  recent_business_days today (pre ++ a :: post) ->
  a < d -> (d <= today) -> Forall (fun x => d < x) pre -> ~ business_day d.
Proof.
  intros (Hs & Hb & Hu & Hc) Had Hd Hpre Hbd.
  assert (Hnot : ~ In d (pre ++ a :: post)).
  { intros Hin. apply in_app_or in Hin as [Hin | [-> | Hin]].
    - rewrite Forall_forall in Hpre. apply list_elem_of_In in Hin.
      specialize (Hpre _ Hin). lia.
    - lia.
    - apply StronglySorted_app_1_r, StronglySorted_inv in Hs as [_ Hlt].
      rewrite Forall_forall in Hlt. apply list_elem_of_In in Hin.
      specialize (Hlt _ Hin). lia. }
  specialize (Hc d Hd Hbd Hnot).
  apply Forall_app in Hc as [_ Hc]. apply Forall_inv in Hc. lia.
Qed.

Lemma getLastNBusinessDays_first today n first :
  head (getLastNBusinessDays today n) = Some first ->
  first = today - Z.of_nat (weekend_gap today).
Proof.
  set (dates := getLastNBusinessDays today n).
  pose proof (getLastNBusinessDays_recent today n) as Hrec. fold dates in Hrec.
  intros Hhead. destruct dates as [|a rest]; [discriminate |].
  injection Hhead as ->.
  assert (Hbetween : forall d, first < d -> d <= today -> ~ business_day d).
  { intros d H1 H2.
    apply (recent_business_days_between today [] first rest d Hrec H1 H2).
    constructor. }
  destruct Hrec as (_ & Hb & Hu & _).
  apply Forall_inv in Hb, Hu.
  pose proof (Hbetween today) as H0.
  pose proof (Hbetween (today - 1)) as H1.
  pose proof (Hbetween (today - 2)) as H2.
  unfold weekend_gap, business_day, getDay in *.
  repeat case_decide; Z.div_mod_to_equations; lia.
Qed.

Lemma getLastNBusinessDays_next today n i a b :
  getLastNBusinessDays today n !! i = Some a ->
  getLastNBusinessDays today n !! S i = Some b ->
  (a - b = 1 /\ getDay a <> 1) \/ (a - b = 3 /\ getDay a = 1).
Proof.
  set (dates := getLastNBusinessDays today n).
  pose proof (getLastNBusinessDays_recent today n) as Hrec. fold dates in Hrec.
  intros Ha Hb.
  assert (Hsplit : dates = take i dates ++ a :: b :: drop (S (S i)) dates).
  { rewrite <- (take_drop i dates) at 1. f_equal.
    rewrite (drop_S _ a i Ha). f_equal.
    rewrite (drop_S _ b (S i) Hb). reflexivity. }
  rewrite Hsplit in Hrec.
  pose proof Hrec as (Hs & Hbus & Hu & _).
  assert (Hpre : Forall (fun x => a < x) (take i dates)).
  { apply StronglySorted_app in Hs as (Hpre & _).
    apply Forall_forall. intros x Hx. apply (Hpre x a Hx). left. }
  assert (Hab : b < a).
  { apply StronglySorted_app_1_r, StronglySorted_inv in Hs as [_ Hlt].
    apply Forall_inv in Hlt. exact Hlt. }
  assert (Ha_today : a <= today).
  { apply Forall_app in Hu as [_ Hu]. apply Forall_inv in Hu. exact Hu. }
  assert (Hbetween : forall d, b < d -> d < a -> ~ business_day d).
  { intros d H1 H2.
    apply (recent_business_days_between today (take i dates ++ [a]) b
             (drop (S (S i)) dates) d).
    - rewrite <- app_assoc. exact Hrec.
    - exact H1.
    - lia.
    - apply Forall_app. split; [| constructor; [exact H2 | constructor]].
      eapply Forall_impl; [exact Hpre |]. cbn. intros; lia. }
  assert (Hba : business_day a /\ business_day b).
  { apply Forall_app in Hbus as [_ Hbus].
    split; [exact (Forall_inv Hbus) | exact (Forall_inv (Forall_inv_tail Hbus))]. }
  pose proof (Hbetween (b + 1)) as H1.
  pose proof (Hbetween (b + 2)) as H2.
  pose proof (Hbetween (b + 3)) as H3.
  unfold business_day, getDay in *.
  Z.div_mod_to_equations. lia.
Qed.

(** X17. The dates step back over week ends only: the first date is today,
    or the Friday before when today is a Saturday or a Sunday, and each
    date after it is the day before the previous one, or the Friday before
    when the previous one is a Monday. *)
Theorem getLastNBusinessDays_steps (today : Date) (n : nat) :
  let dates := getLastNBusinessDays today n in
  (forall first,
     head dates = Some first -> first = today - Z.of_nat (weekend_gap today))
  /\ (forall i a b,
        dates !! i = Some a -> dates !! S i = Some b ->
        (a - b = 1 /\ getDay a <> 1) \/ (a - b = 3 /\ getDay a = 1)).
Proof.
  intros dates. split.
  - intros first. apply getLastNBusinessDays_first.
  - intros i a b. apply getLastNBusinessDays_next.
Qed.

(** X18. The dates in closed form: counting from the first date, the date
    of rank [i] is [i] days back plus two days for every week end crossed.
    The five days that [POST] asks for are never more than six days
    old. *)
Theorem getLastNBusinessDays_closed_form (today : Date) (n : nat) :
  let first := today - Z.of_nat (weekend_gap today) in
  (forall i d,
     getLastNBusinessDays today n !! i = Some d ->
     d = first - Z.of_nat i - 2 * ((Z.of_nat i + 5 - getDay first) / 5))
  /\ Forall (fun d => today - 6 <= d) (getLastNBusinessDays today 5).
Proof.
  intros first.
  assert (Hform : forall m i d,
            getLastNBusinessDays today m !! i = Some d ->
            d = first - Z.of_nat i - 2 * ((Z.of_nat i + 5 - getDay first) / 5)
            /\ business_day d).
  { intros m. induction i as [|i IH]; intros d Hd.
    - assert (Hb : business_day d).
      { pose proof (getLastNBusinessDays_recent today m) as (_ & Hb & _).
        rewrite Forall_forall in Hb. apply Hb, list_elem_of_lookup. eauto. }
      split; [| exact Hb].
      rewrite <- head_lookup in Hd.
      apply getLastNBusinessDays_first in Hd. fold first in Hd. subst d.
      unfold business_day, getDay in *. Z.div_mod_to_equations. lia.
    - assert (Hb : business_day d).
      { pose proof (getLastNBusinessDays_recent today m) as (_ & Hb & _).
        rewrite Forall_forall in Hb. apply Hb, list_elem_of_lookup. eauto. }
      split; [| exact Hb].
      destruct (getLastNBusinessDays today m !! i) as [a|] eqn:Ha.
      + destruct (IH a eq_refl) as [Hfa Hba].
        pose proof (getLastNBusinessDays_next today m i a d Ha Hd) as Hstep.
        assert (Hf : business_day first).
        { destruct (getLastNBusinessDays today m) as [|x l] eqn:Hl;
            [discriminate |].
          pose proof (getLastNBusinessDays_recent today m) as (_ & Hb' & _).
          rewrite Hl in Hb'. apply Forall_inv in Hb'.
          assert (x = first)
            by (apply (getLastNBusinessDays_first today m); rewrite Hl; reflexivity).
          subst x. exact Hb'. }
        rewrite Nat2Z.inj_succ.
        unfold business_day, getDay in *. Z.div_mod_to_equations. lia.
      + apply lookup_ge_None in Ha. apply lookup_lt_Some in Hd. lia. }
  split.
  - intros i d Hd. apply (Hform n i d Hd).
  - apply Forall_forall. intros d Hd.
    apply list_elem_of_lookup in Hd as [i Hi].
    pose proof (lookup_lt_Some _ _ _ Hi) as Hlt.
    rewrite getLastNBusinessDays_length in Hlt.
    destruct (Hform 5%nat i d Hi) as [-> _].
    unfold first, weekend_gap, getDay in *.
    repeat case_decide; Z.div_mod_to_equations; lia.
Qed.

(** ** Archive file names *)

Lemma civil_bounds date :
  1 <= getMonth date + 1 <= 12 /\ 1 <= getDate date <= 31.
Proof.
  unfold getMonth, getDate, civil. cbv zeta. cbn [fst snd].
  repeat case_decide; Z.div_mod_to_equations; lia.
Qed.

Lemma civil_roundtrip date :
  days_from_civil (getFullYear date) (getMonth date + 1) (getDate date) = date.
Proof.
  unfold getFullYear, getMonth, getDate, civil, days_from_civil.
  cbv zeta. cbn [fst snd].
  repeat case_decide; Z.div_mod_to_equations; lia.
Qed.

(** A property checked on every integer of a range holds on the range. *)
Lemma checked_on_range (P : Z -> bool) (lo : Z) (len : nat) :
  forallb (fun k => P (lo + Z.of_nat k)) (seq 0 len) = true ->
  forall n, lo <= n < lo + Z.of_nat len -> P n = true.
Proof.
  intros Hall n Hn. rewrite forallb_forall in Hall.
  replace n with (lo + Z.of_nat (Z.to_nat (n - lo))) by lia.
  apply Hall, in_seq. lia.
Qed.

Lemma pad2_writes n : 0 <= n < 100 -> writes 2 n (pad2 n) = true.
Proof.
  apply (checked_on_range (fun n => writes 2 n (pad2 n)) 0 100).
  vm_compute. reflexivity.
Qed.

Lemma year_writes y : 1000 <= y < 10000 -> writes 4 y (js (pretty y)) = true.
Proof.
  apply (checked_on_range (fun y => writes 4 y (js (pretty y))) 1000 9000).
  vm_compute. reflexivity.
Qed.

Lemma writes_spec width n s :
  writes width n s = true ->
  length s = width /\ Forall (fun c => is_digit c = true) s
  /\ read_digits 0 0 s = (n, width, []).
Proof.
  unfold writes. rewrite !andb_true_iff, !bool_decide_eq_true, forallb_forall.
  intros [[Hlen Hdig] Hread]. split; [exact Hlen |]. split; [| exact Hread].
  apply Forall_forall. intros c Hc. apply Hdig, list_elem_of_In, Hc.
Qed.

Lemma writes_inj width n1 n2 s :
  writes width n1 s = true -> writes width n2 s = true -> n1 = n2.
Proof.
  intros H1 H2. apply writes_spec in H1 as (_ & _ & H1).
  apply writes_spec in H2 as (_ & _ & H2). congruence.
Qed.

(** X19. In the years 1000 to 9999 the name part that [formatDateForNSE]
    builds is eight decimal digits: two for the day, two for the month and
    four for the year, each the writing of that number. *)
Theorem formatDateForNSE_eight_digits (date : Date) :
  1000 <= getFullYear date < 10000 ->
  length (formatDateForNSE date) = 8%nat
  /\ Forall (fun c => is_digit c = true) (formatDateForNSE date)
  /\ read_digits 0 0 (take 2 (formatDateForNSE date)) = (getDate date, 2%nat, [])
  /\ read_digits 0 0 (take 2 (drop 2 (formatDateForNSE date)))
     = (getMonth date + 1, 2%nat, [])
  /\ read_digits 0 0 (drop 4 (formatDateForNSE date))
     = (getFullYear date, 4%nat, []).
Proof.
  intros Hyear. destruct (civil_bounds date) as [Hm Hd].
  destruct (writes_spec _ _ _ (pad2_writes (getDate date) ltac:(lia)))
    as (Hl1 & Hd1 & Hr1).
  destruct (writes_spec _ _ _ (pad2_writes (getMonth date + 1) ltac:(lia)))
    as (Hl2 & Hd2 & Hr2).
  destruct (writes_spec _ _ _ (year_writes (getFullYear date) Hyear))
    as (Hl3 & Hd3 & Hr3).
  unfold formatDateForNSE. cbv zeta.
  set (dd := pad2 (getDate date)) in *.
  set (mm := pad2 (getMonth date + 1)) in *.
  set (yyyy := js (pretty (getFullYear date))) in *.
  split; [rewrite !length_app; lia |].
  split.
  { apply Forall_app. split; [exact Hd1 |].
    apply Forall_app. split; [exact Hd2 | exact Hd3]. }
  split; [rewrite take_app_length' by (symmetry; exact Hl1); exact Hr1 |].
  split.
  - rewrite drop_app_length' by (symmetry; exact Hl1).
    rewrite take_app_length' by (symmetry; exact Hl2). exact Hr2.
  - rewrite app_assoc, drop_app_length' by (rewrite length_app; lia).
    exact Hr3.
Qed.

Lemma formatDateForNSE_eight_digits_witness :
  length (formatDateForNSE 20756) = 8%nat.
Proof.
  apply (formatDateForNSE_eight_digits 20756). vm_compute.
  split; [discriminate | reflexivity].
Defined.

(** X20. Two different days of the years 1000 to 9999 never share a
    file: their names, and so the addresses [downloadBhavCopy] fetches,
    differ. *)
Theorem archive_url_injective (date1 date2 : Date) :
  1000 <= getFullYear date1 < 10000 ->
  1000 <= getFullYear date2 < 10000 ->
  date1 <> date2 ->
  archive_url (formatDateForNSE date1) <> archive_url (formatDateForNSE date2).
Proof.
  intros Hy1 Hy2 Hne Hurl. apply Hne.
  unfold archive_url in Hurl. apply app_inv_head in Hurl.
  apply app_inv_tail in Hurl.
  destruct (civil_bounds date1) as [Hm1 Hd1].
  destruct (civil_bounds date2) as [Hm2 Hd2].
  pose proof (pad2_writes (getDate date1) ltac:(lia)) as Wd1.
  pose proof (pad2_writes (getDate date2) ltac:(lia)) as Wd2.
  pose proof (pad2_writes (getMonth date1 + 1) ltac:(lia)) as Wm1.
  pose proof (pad2_writes (getMonth date2 + 1) ltac:(lia)) as Wm2.
  pose proof (year_writes _ Hy1) as Wy1.
  pose proof (year_writes _ Hy2) as Wy2.
  unfold formatDateForNSE in Hurl. cbv zeta in Hurl.
  apply app_inj_1 in Hurl as [Hd Hrest];
    [| destruct (writes_spec _ _ _ Wd1) as [-> _];
       destruct (writes_spec _ _ _ Wd2) as [-> _]; reflexivity].
  apply app_inj_1 in Hrest as [Hm Hy];
    [| destruct (writes_spec _ _ _ Wm1) as [-> _];
       destruct (writes_spec _ _ _ Wm2) as [-> _]; reflexivity].
  rewrite Hd in Wd1. rewrite Hm in Wm1. rewrite Hy in Wy1.
  pose proof (writes_inj _ _ _ _ Wd1 Wd2) as Ed.
  pose proof (writes_inj _ _ _ _ Wm1 Wm2) as Em.
  pose proof (writes_inj _ _ _ _ Wy1 Wy2) as Ey.
  rewrite <- (civil_roundtrip date1), <- (civil_roundtrip date2).
  rewrite Ed, Em, Ey. reflexivity.
Qed.

Lemma archive_url_injective_witness :
  archive_url (formatDateForNSE 20756) <> archive_url (formatDateForNSE 20755).
Proof.
  apply archive_url_injective;
    [vm_compute; split; [discriminate | reflexivity]
    |vm_compute; split; [discriminate | reflexivity]
    |discriminate].
Defined.

(** ** The page *)

Lemma split_at_separator sep l rest :
  ~ In sep l -> split sep (l ++ sep :: rest) = l :: split sep rest.
Proof.
  induction l as [|c l IH]; intros Hl; simpl.
  - rewrite decide_True by reflexivity. reflexivity.
  - rewrite decide_False by (intros ->; apply Hl; left; reflexivity).
    rewrite IH by (intros Hin; apply Hl; right; exact Hin). reflexivity.
Qed.

Lemma split_without_separator sep l : ~ In sep l -> split sep l = [l].
Proof.
  induction l as [|c l IH]; intros Hl; simpl; [reflexivity |].
  rewrite decide_False by (intros ->; apply Hl; left; reflexivity).
  rewrite IH by (intros Hin; apply Hl; right; exact Hin). reflexivity.
Qed.

Lemma split_nonempty sep l : split sep l <> [].
Proof.
  destruct l as [|c l]; simpl; [discriminate |].
  destruct (decide (c = sep)); [discriminate |].
  destruct (split sep l); discriminate.
Qed.

(** The lines of a chunk made of whole events, followed by [rest]. *)
Lemma split_wire stringify evs rest :
  Forall (fun ev => ~ In "010"%char (stringify ev)) evs ->
  split "010"%char (concat (map (wire stringify) evs) ++ rest)
  = concat (map (fun ev => [js "data: " ++ stringify ev; []]) evs)
    ++ split "010"%char rest.
Proof.
  induction 1 as [|ev evs Hev _ IH]; [reflexivity |].
  cbn [map concat]. unfold wire at 1. rewrite <- !app_assoc.
  rewrite (app_assoc (js "data: ")).
  cbn [app]. rewrite split_at_separator.
  - cbn [split]. rewrite decide_True by reflexivity. rewrite IH. reflexivity.
  - intros Hin. apply in_app_or in Hin as [Hin | Hin]; [| exact (Hev Hin)].
    vm_compute in Hin. intuition discriminate.
Qed.

Lemma read_lines_app parse v lines1 lines2 :
  Page.read_lines parse v (lines1 ++ lines2)
  = match Page.read_lines parse v lines1 with
    | (v', None) => Page.read_lines parse v' lines2
    | (v', Some e) => (v', Some e)
    end.
Proof.
  revert v; induction lines1 as [|line lines1 IH]; intros v; [reflexivity |].
  cbn [app Page.read_lines].
  destruct (startsWith line (js "data: ")); [| apply IH].
  destruct (parse (drop 6 line)); [apply IH | reflexivity].
Qed.

Lemma read_lines_events stringify parse evs : forall v,
  Forall (fun ev => parse (stringify ev) = Return (message_of ev)) evs ->
  Page.read_lines parse v
    (concat (map (fun ev => [js "data: " ++ stringify ev; []]) evs))
  = (fold_left Page.dispatch (map message_of evs) v, None).
Proof.
  induction evs as [|ev evs IH]; intros v Hparse; [reflexivity |].
  apply Forall_cons in Hparse as [Hev Hparse].
  cbn [map concat app Page.read_lines fold_left].
  replace (startsWith (js "data: " ++ stringify ev) (js "data: ")) with true
    by reflexivity.
  replace (drop 6 (js "data: " ++ stringify ev)) with (stringify ev)
    by reflexivity.
  rewrite Hev. replace (startsWith [] (js "data: ")) with false by reflexivity.
  apply IH, Hparse.
Qed.

(** X21. The page decodes what the route encodes: a chunk made of whole
    events, framed as [POST] frames them, is read as these events in
    order, whatever the number of events in the chunk, provided that the
    serialised text of an event holds no line feed and parses back to the
    event. *)
Theorem page_reads_whole_events
    (stringify : event -> list ascii)
    (parse : list ascii -> outcome Page.message)
    (evs : list event) (v : Page.View) :
  Forall (fun ev => ~ In "010"%char (stringify ev)) evs ->
  Forall (fun ev => parse (stringify ev) = Return (message_of ev)) evs ->
  Page.read_lines parse v
    (split "010"%char (concat (map (wire stringify) evs)))
  = (fold_left Page.dispatch (map message_of evs) v, None).
Proof.
  intros Hlf Hparse.
  rewrite <- (app_nil_r (concat _)), split_wire by exact Hlf.
  rewrite read_lines_app, read_lines_events by exact Hparse. reflexivity.
Qed.

Lemma page_reads_whole_events_witness :
  Page.read_lines (untag [])
    {| Page.loading := true; Page.results := []; Page.error := [];
       Page.progress := js "Starting analysis..." |}
    (split "010"%char
       (concat (map (wire tag_event)
                  [Progress (js "Fetching data for 30/10/2026...");
                   Progress (js "Analyzing 0 transactions");
                   Result []])))
  = ({| Page.loading := true; Page.results := []; Page.error := [];
        Page.progress := js "Analysis complete!" |}, None).
Proof.
  etransitivity; [apply page_reads_whole_events |].
  - repeat (constructor;
            [rewrite <- list_elem_of_In; apply (bool_decide_unpack _);
             vm_compute; exact I |]).
    constructor.
  - repeat (constructor; [reflexivity |]). constructor.
  - reflexivity.
Defined.





Lemma read_chunks_app parse v reads1 reads2 :
  Page.read_chunks parse v (reads1 ++ reads2)
  = match Page.read_chunks parse v reads1 with
    | (v', None) => Page.read_chunks parse v' reads2
    | (v', Some e) => (v', Some e)
    end.
Proof.
  revert v; induction reads1 as [|[chunk|e] reads1 IH]; intros v;
    [reflexivity | | reflexivity].
  cbn [app Page.read_chunks].
  destruct (Page.read_lines parse v (split "010"%char chunk)) as [v' [e|]];
    [reflexivity | apply IH].
Qed.

(** X23. A data line that does not parse ends the reading: the lines and
    the chunks before it have taken effect, the lines after it in the chunk
    and all later chunks are never looked at, and the page ends, not
    loading, with the message of the exception as its error. *)
Theorem page_stops_at_unreadable_line
    (parse : list ascii -> outcome Page.message)
    (earlier rest : list (outcome (list ascii)))
    (chunk bad : list ascii) (before after : list (list ascii))
    (e : thrown) (v v0 v1 : Page.View) :
  Page.read_chunks parse
    {| Page.loading := true; Page.results := []; Page.error := [];
       Page.progress := js "Starting analysis..." |} earlier = (v0, None) ->
  split "010"%char chunk = before ++ bad :: after ->
  Page.read_lines parse v0 before = (v1, None) ->
  startsWith bad (js "data: ") = true ->
  parse (drop 6 bad) = Throw e ->
  Page.analyzeAccumulation parse
    (Return
       {| Page.reply_ok := true;
          Page.body := Some (earlier ++ Return chunk :: rest) |}) v
  = {| Page.loading := false; Page.results := Page.results v1;
       Page.error := Page.failure_text e;
       Page.progress := Page.progress v1 |}.
Proof.
  intros Hearlier Hsplit Hbefore Hdata Hparse.
  unfold Page.analyzeAccumulation. cbn [Page.reply_ok Page.body negb].
  rewrite read_chunks_app, Hearlier. cbn [Page.read_chunks].
  rewrite Hsplit, read_lines_app, Hbefore. cbn [Page.read_lines].
  rewrite Hdata, Hparse. reflexivity.
Qed.

Lemma page_stops_at_unreadable_line_witness :
  Page.analyzeAccumulation (untag [])
    (Return
       {| Page.reply_ok := true;
          Page.body :=
            Some ([Return (wire tag_event (Progress (js "one")))]
                  ++ Return (wire tag_event (Progress (js "two"))
                             ++ js "data: " ++ ["010"%char]
                             ++ wire tag_event (Result []))
                  :: [Return (wire tag_event (Progress (js "three")))]) |})
    {| Page.loading := false; Page.results := []; Page.error := [];
       Page.progress := [] |}
  = {| Page.loading := false; Page.results := [];
       Page.error := js "Unexpected end of JSON input";
       Page.progress := js "two" |}.
Proof.
  apply (page_stops_at_unreadable_line (untag []) _ _ _ (js "data: ")
           [js "data: Ptwo"; []] [js "data: R"; []; []]
           (ErrorObject (js "Unexpected end of JSON input")) _
           {| Page.loading := true; Page.results := []; Page.error := [];
              Page.progress := js "one" |}
           {| Page.loading := true; Page.results := []; Page.error := [];
              Page.progress := js "two" |}); reflexivity.
Defined.

(** * Properties of the numeric code

    ** Binary64 arithmetic *)

Lemma digits2_pos_bounds (m : positive) :
  2 ^ (Z.pos (digits2_pos m) - 1) <= Z.pos m < 2 ^ Z.pos (digits2_pos m).
Proof.
  induction m as [m IH|m IH|]; cbn [digits2_pos];
    [| | split; [reflexivity | reflexivity]].
  all: rewrite Pos2Z.inj_succ.
  all: replace (Z.succ (Z.pos (digits2_pos m)) - 1)
         with (Z.succ (Z.pos (digits2_pos m) - 1)) by lia.
  all: rewrite !Z.pow_succ_r by lia.
  all: lia.
Qed.

Lemma shr_1_m mrs : 0 <= shr_m mrs -> shr_m (shr_1 mrs) = shr_m mrs / 2.
Proof.
  destruct mrs as [m r s]. cbn [shr_m shr_1]. intros Hm.
  destruct m as [|[p|p|]|p]; cbn [shr_m]; try reflexivity; try lia.
  - apply Z.div_unique with 1; lia.
  - apply Z.div_unique with 0; lia.
Qed.

Lemma iter_shr_1_m (p : positive) : forall mrs,
  0 <= shr_m mrs ->
  shr_m (SpecFloat.iter_pos shr_1 p mrs) = shr_m mrs / 2 ^ Z.pos p.
Proof.
  induction p as [p IH|p IH|]; intros mrs Hm; cbn [SpecFloat.iter_pos].
  - assert (H1 : 0 <= shr_m (shr_1 mrs))
      by (rewrite shr_1_m by exact Hm; apply Z.div_pos; lia).
    assert (H2 : 0 <= shr_m (SpecFloat.iter_pos shr_1 p (shr_1 mrs)))
      by (rewrite IH by exact H1; apply Z.div_pos; [exact H1 | lia]).
    rewrite IH by exact H2. rewrite IH by exact H1. rewrite shr_1_m by exact Hm.
    rewrite !Z.div_div by lia.
    f_equal. replace (Z.pos p~1) with (1 + (Z.pos p + Z.pos p)) by lia.
    rewrite !Z.pow_add_r by lia. ring.
  - assert (H1 : 0 <= shr_m (SpecFloat.iter_pos shr_1 p mrs))
      by (rewrite IH by exact Hm; apply Z.div_pos; [exact Hm | lia]).
    rewrite IH by exact H1. rewrite IH by exact Hm.
    rewrite Z.div_div by lia.
    f_equal. replace (Z.pos p~0) with (Z.pos p + Z.pos p) by lia.
    rewrite !Z.pow_add_r by lia. ring.
  - rewrite shr_1_m by exact Hm. reflexivity.
Qed.

Lemma shr_record_of_loc_m m l : shr_m (shr_record_of_loc m l) = m.
Proof. destruct l as [|[]]; reflexivity. Qed.

Lemma fexp_binary64 x : fexp prec emax x = Z.max (x - 53) (-1074).
Proof. reflexivity. Qed.

(** Shifting to the exponent of the format keeps a mantissa that is not
    negative so, and a positive one positive when the exponent is in
    range. *)
Lemma shr_fexp_m m e l :
  0 <= m ->
  0 <= shr_m (shr_fexp prec emax m e l).1
  /\ (0 < m -> -1074 <= e ->
      0 < shr_m (shr_fexp prec emax m e l).1
      /\ -1074 <= (shr_fexp prec emax m e l).2).
Proof.
  intros Hm. unfold shr_fexp, shr.
  destruct (fexp prec emax (Zdigits2 m + e) - e) as [|n|n] eqn:Hn;
    cbn [fst snd]; rewrite ?shr_record_of_loc_m.
  1,3: split; [exact Hm | intros; split; assumption].
  rewrite iter_shr_1_m by (rewrite shr_record_of_loc_m; exact Hm).
  rewrite shr_record_of_loc_m.
  split; [apply Z.div_pos; [exact Hm | apply Z.pow_pos_nonneg; lia] |].
  intros Hpos He. destruct m as [|p|p]; try lia.
  cbn [Zdigits2] in Hn. pose proof (digits2_pos_bounds p) as [Hlo _].
  rewrite fexp_binary64 in Hn.
  assert (Hd : Z.pos n <= Z.pos (digits2_pos p) - 1) by lia.
  split; [| lia].
  apply Z.div_str_pos. split; [lia |].
  apply Z.le_trans with (2 ^ (Z.pos (digits2_pos p) - 1)); [| exact Hlo].
  apply Z.pow_le_mono_r; lia.
Qed.

Lemma round_nearest_even_le m l : m <= round_nearest_even m l.
Proof. destruct l as [|[]]; simpl; try destruct (Z.even m); lia. Qed.

Lemma binary_round_aux_rounded s m e l :
  0 <= m -> rounded s (binary_round_aux prec emax s m e l).
Proof.
  intros Hm. unfold binary_round_aux.
  pose proof (shr_fexp_m m e l Hm) as [H1 _].
  destruct (shr_fexp prec emax m e l) as [mrs' e'] eqn:E1. cbn [fst] in H1.
  pose proof (round_nearest_even_le (shr_m mrs') (loc_of_shr_record mrs')) as Hr.
  pose proof (shr_fexp_m (round_nearest_even (shr_m mrs') (loc_of_shr_record mrs'))
                e' loc_Exact ltac:(lia)) as [H2 _].
  destruct (shr_fexp prec emax _ e' loc_Exact) as [mrs'' e''] eqn:E2.
  cbn [fst] in H2.
  destruct (shr_m mrs'') as [|p|p]; [constructor | | lia].
  destruct (e'' <=? emax - prec); constructor.
Qed.

Lemma binary_round_aux_positive s m e l :
  0 < m -> -1074 <= e ->
  rounded_positive s (binary_round_aux prec emax s m e l).
Proof.
  intros Hm He. unfold binary_round_aux.
  pose proof (shr_fexp_m m e l ltac:(lia)) as [_ H1].
  specialize (H1 Hm He).
  destruct (shr_fexp prec emax m e l) as [mrs' e'] eqn:E1.
  cbn [fst snd] in H1. destruct H1 as [H1 He'].
  pose proof (round_nearest_even_le (shr_m mrs') (loc_of_shr_record mrs')) as Hr.
  pose proof (shr_fexp_m (round_nearest_even (shr_m mrs') (loc_of_shr_record mrs'))
                e' loc_Exact ltac:(lia)) as [_ H2].
  specialize (H2 ltac:(lia) He').
  destruct (shr_fexp prec emax _ e' loc_Exact) as [mrs'' e''] eqn:E2.
  cbn [fst snd] in H2. destruct H2 as [H2 _].
  destruct (shr_m mrs'') as [|p|p]; [lia | | lia].
  destruct (e'' <=? emax - prec); constructor.
Qed.

Lemma shl_align_spec m e e' :
  let r := shl_align m e e' in
  r.2 = Z.min e e' /\ Z.pos r.1 = Z.pos m * 2 ^ (e - r.2).
Proof.
  unfold shl_align. destruct (e' - e) as [|d|d] eqn:Hd; cbn [fst snd].
  - split; [lia |]. rewrite Z.sub_diag. lia.
  - split; [lia |]. rewrite Z.sub_diag. lia.
  - split; [lia |]. replace (e - e') with (Z.pos d) by lia.
    rewrite Pos.iter_swap_gen with (f := Z.pos) (h := Z.mul 2)
      by (intros; reflexivity).
    clear Hd. revert m. induction d as [|d IH] using Pos.peano_ind; intros m.
    + simpl. lia.
    + rewrite Pos.iter_succ, IH, Pos2Z.inj_succ, Z.pow_succ_r by lia. lia.
Qed.

Lemma binary_round_positive s m e :
  -1074 <= e -> rounded_positive s (binary_round prec emax s m e).
Proof.
  intros He. unfold binary_round.
  pose proof (shl_align_spec m e (fexp prec emax (Z.pos (digits2_pos m) + e)))
    as [H1 _].
  destruct (shl_align m e _) as [mz ez]. cbn [snd] in H1.
  apply binary_round_aux_positive; [lia |].
  rewrite fexp_binary64 in H1. lia.
Qed.

Lemma binary_normalize_sign m e szero :
  -1074 <= e ->
  match m ?= 0 with
  | Gt => rounded_positive false (binary_normalize prec emax m e szero)
  | Lt => rounded_positive true (binary_normalize prec emax m e szero)
  | Eq => binary_normalize prec emax m e szero = S754_zero szero
  end.
Proof.
  intros He. destruct m as [|p|p]; cbn [Z.compare binary_normalize];
    [reflexivity | |]; apply binary_round_positive, He.
Qed.

(** What validity says of a finite number: at most 53 digits, an exponent
    in range, and 53 digits exactly above the least exponent. *)
Lemma valid_finite s m e :
  valid_binary (S754_finite s m e) = true ->
  -1074 <= e <= 971
  /\ Z.pos m < 2 ^ 53
  /\ (-1074 < e -> 2 ^ 52 <= Z.pos m).
Proof.
  cbn [SpecFloat.valid_binary]. unfold bounded, canonical_mantissa.
  rewrite fexp_binary64. intros H. apply andb_true_iff in H as [Hc He].
  apply Z.eqb_eq in Hc. apply Z.leb_le in He. unfold emax, prec in He.
  pose proof (digits2_pos_bounds m) as [Hlo Hhi].
  split; [lia |]. split.
  - apply Z.lt_le_trans with (1 := Hhi). apply Z.pow_le_mono_r; lia.
  - intros Hn. replace (Z.pos (digits2_pos m) - 1) with 52 in Hlo by lia.
    exact Hlo.
Qed.


Lemma SFltb_zero_rounded_positive s X :
  rounded_positive s X -> SFltb (S754_zero false) X = negb s.
Proof. intros []; destruct s; reflexivity. Qed.


Lemma SFadd_positive X Y :
  valid_binary X = true -> valid_binary Y = true ->
  SFleb (S754_zero false) X = true -> SFltb (S754_zero false) Y = true ->
  SFltb (S754_zero false) (SF64add X Y) = true.
Proof.
  intros HX HY Hx Hy.
  destruct X as [[]|[]| |[] mx ex], Y as [sy|[]| |[] my ey];
    try discriminate; try reflexivity.
  unfold SF64add, SFadd. cbn [cond_Zopp].
  pose proof (valid_finite _ _ _ HX) as (Hbx & _).
  pose proof (valid_finite _ _ _ HY) as (Hby & _).
  change (IntDef.Z.min ex ey) with (Z.min ex ey).
  set (M := IntDef.Z.add _ _).
  assert (HM : (M ?= 0) = Gt)
    by (apply Z.compare_gt_iff; unfold M;
        change IntDef.Z.add with Z.add; lia).
  pose proof (binary_normalize_sign M (Z.min ex ey) false ltac:(lia)) as Hn.
  rewrite HM in Hn. rewrite (SFltb_zero_rounded_positive _ _ Hn). reflexivity.
Qed.

Lemma SFleb_zero_rounded X :
  rounded false X -> SFleb (S754_zero false) X = true.
Proof. intros []; reflexivity. Qed.

Lemma SFadd_nonnegative X Y :
  valid_binary X = true -> valid_binary Y = true ->
  SFleb (S754_zero false) X = true -> SFleb (S754_zero false) Y = true ->
  SFleb (S754_zero false) (SF64add X Y) = true.
Proof.
  intros HX HY Hx Hy.
  destruct Y as [[]|[]| |[] my ey] eqn:EY; try discriminate;
    try (destruct X as [[]|[]| |[] mx ex]; try discriminate; reflexivity).
  unfold SFleb.
  assert (H : SFltb (S754_zero false) (SF64add X (S754_finite false my ey)) = true)
    by (apply SFadd_positive; [assumption | assumption | assumption | reflexivity]).
  unfold SFltb in H. destruct (SFcompare _ _) as [[]|]; try discriminate.
  reflexivity.
Qed.

Lemma SFmul_nonnegative X Y :
  SFltb (S754_zero false) X = true -> SFltb (S754_zero false) Y = true ->
  SFleb (S754_zero false) (SF64mul X Y) = true.
Proof.
  intros Hx Hy.
  destruct X as [sx|[]| |[] mx ex], Y as [sy|[]| |[] my ey];
    try discriminate; try reflexivity.
  unfold SF64mul, SFmul. cbn [xorb].
  apply SFleb_zero_rounded, binary_round_aux_rounded. lia.
Qed.

Lemma SFdiv_nonnegative X Y :
  SFleb (S754_zero false) X = true -> SFltb (S754_zero false) Y = true ->
  SFleb (S754_zero false) (SF64div X Y) = true
  \/ (X = S754_infinity false /\ Y = S754_infinity false).
Proof.
  intros Hx Hy.
  destruct X as [[]|[]| |[] mx ex], Y as [sy|[]| |[] my ey];
    try discriminate; try (left; reflexivity); try (right; split; reflexivity).
  left. unfold SF64div, SFdiv. cbn [xorb].
  destruct (SFdiv_core_binary prec emax (Z.pos mx) ex (Z.pos my) ey)
    as [[mz ez] lz] eqn:E.
  apply SFleb_zero_rounded, binary_round_aux_rounded.
  unfold SFdiv_core_binary in E. cbv zeta in E.
  destruct (IntDef.Z.div_eucl _ (Z.pos my)) as [q r] eqn:Eq.
  injection E as <- _ _.
  change IntDef.Z.div_eucl with Z.div_eucl in Eq.
  match type of Eq with Z.div_eucl ?a ?b = _ =>
    assert (Ha : 0 <= a);
    [| pose proof (Z_div_mod a b ltac:(lia)) as Hd; rewrite Eq in Hd; nia]
  end.
  destruct (_ - _ - _) as [|s|s]; try lia.
  change IntDef.Z.shiftl with Z.shiftl. apply Z.shiftl_nonneg. lia.
Qed.

Lemma SFcompare_rank X Y :
  valid_binary X = true -> valid_binary Y = true ->
  X <> S754_nan -> Y <> S754_nan ->
  SFcompare X Y = Some (rank X ?= rank Y).
Proof.
  intros HX HY NX NY.
  destruct X as [sx|sx| |sx mx ex]; try congruence;
    destruct Y as [sy|sy| |sy my ey]; try congruence;
    try (pose proof (valid_finite _ _ _ HX) as (Hbx & Hmx & _));
    try (pose proof (valid_finite _ _ _ HY) as (Hby & Hmy & _));
    change (2 ^ 53) with 9007199254740992 in *;
    cbn [SFcompare rank]; cbv zeta;
    try destruct sx; try destruct sy; try reflexivity; f_equal; symmetry;
    try (apply Z.compare_lt_iff; lia); try (apply Z.compare_gt_iff; lia).
  - destruct (Z.compare_spec ex ey) as [He|He|He].
    + subst ey.
      change (Pos.compare_cont Eq mx my) with (Z.pos mx ?= Z.pos my).
      destruct (Z.compare_spec (Z.pos mx) (Z.pos my)); cbn [CompOpp];
        [apply Z.compare_eq_iff | apply Z.compare_gt_iff
        | apply Z.compare_lt_iff]; lia.
    + apply Z.compare_gt_iff. lia.
    + apply Z.compare_lt_iff. lia.
  - destruct (Z.compare_spec ex ey) as [He|He|He].
    + subst ey.
      change (Pos.compare_cont Eq mx my) with (Z.pos mx ?= Z.pos my).
      destruct (Z.compare_spec (Z.pos mx) (Z.pos my));
        [apply Z.compare_eq_iff | apply Z.compare_lt_iff
        | apply Z.compare_gt_iff]; lia.
    + apply Z.compare_lt_iff. lia.
    + apply Z.compare_gt_iff. lia.
Qed.

Lemma is_nan_spec x : is_nan x = false <-> Prim2SF x <> S754_nan.
Proof.
  unfold is_nan. rewrite FloatAxioms.eqb_spec. unfold SFeqb.
  pose proof (Prim2SF_valid x) as Hv.
  destruct (Prim2SF x) as [s|s| |s m e] eqn:E.
  - split; [discriminate | reflexivity].
  - split; [discriminate | destruct s; reflexivity].
  - split; [discriminate | congruence].
  - rewrite (SFcompare_rank _ _ Hv Hv) by discriminate.
    rewrite Z.compare_refl. split; [discriminate | reflexivity].
Qed.

Lemma compare_ord x y :
  is_nan x = false -> is_nan y = false ->
  SFcompare (Prim2SF x) (Prim2SF y) = Some (ord x ?= ord y).
Proof.
  intros Hx Hy. apply SFcompare_rank; try apply Prim2SF_valid;
    apply is_nan_spec; assumption.
Qed.

Lemma ltb_ord x y :
  is_nan x = false -> is_nan y = false -> (x <? y)%float = (ord x <? ord y).
Proof.
  intros Hx Hy. rewrite FloatAxioms.ltb_spec. unfold SFltb.
  rewrite (compare_ord x y Hx Hy). reflexivity.
Qed.

Lemma leb_ord x y :
  is_nan x = false -> is_nan y = false -> (x <=? y)%float = (ord x <=? ord y).
Proof.
  intros Hx Hy. rewrite FloatAxioms.leb_spec. unfold SFleb.
  rewrite (compare_ord x y Hx Hy). unfold Z.leb.
  destruct (ord x ?= ord y); reflexivity.
Qed.



Lemma ltb_not_nan x y : (x <? y)%float = true -> is_nan x = false /\ is_nan y = false.
Proof.
  rewrite FloatAxioms.ltb_spec. unfold SFltb. intros H.
  split; apply is_nan_spec; intros E; rewrite E in H;
    [| destruct (Prim2SF x)]; discriminate.
Qed.


Lemma add_positive x y :
  (0 <=? x)%float = true -> (0 <? y)%float = true -> (0 <? x + y)%float = true.
Proof.
  rewrite FloatAxioms.leb_spec, !FloatAxioms.ltb_spec, FloatAxioms.add_spec.
  apply SFadd_positive; apply Prim2SF_valid.
Qed.

Lemma add_nonnegative x y :
  (0 <=? x)%float = true -> (0 <=? y)%float = true ->
  (0 <=? x + y)%float = true.
Proof.
  rewrite !FloatAxioms.leb_spec, FloatAxioms.add_spec. apply SFadd_nonnegative; apply Prim2SF_valid.
Qed.

Lemma mul_nonnegative x y :
  (0 <? x)%float = true -> (0 <? y)%float = true ->
  (0 <=? x * y)%float = true.
Proof.
  rewrite !FloatAxioms.ltb_spec, FloatAxioms.leb_spec, FloatAxioms.mul_spec. apply SFmul_nonnegative.
Qed.

Lemma ltb_leb x y : (x <? y)%float = true -> (x <=? y)%float = true.
Proof.
  intros H. destruct (ltb_not_nan _ _ H) as [Hx Hy].
  rewrite ltb_ord in H by assumption. rewrite leb_ord by assumption. lia.
Qed.


Lemma div_nonnegative x y :
  (0 <=? x)%float = true -> (0 <? y)%float = true ->
  (0 <=? x / y)%float = true \/ (x = infinity /\ y = infinity).
Proof.
  rewrite !FloatAxioms.leb_spec, FloatAxioms.ltb_spec, FloatAxioms.div_spec.
  intros Hx Hy.
  destruct (SFdiv_nonnegative _ _ Hx Hy) as [H|[H1 H2]]; [left; exact H |].
  right. split; apply Prim2SF_inj; assumption.
Qed.

(** ** The binary64 model on examples *)

(** [parseFloat] rounds to the nearest number, overflows to [Infinity],
    underflows to zero and reads the literal [Infinity]. *)
Example runtime_parseFloat_examples :
  Runtime.parseFloat (js "12.5") = 12.5%float
  /\ Runtime.parseFloat (js "1000") = 1000%float
  /\ Runtime.parseFloat (js "0.1") = 0x1.999999999999ap-4%float
  /\ Runtime.parseFloat (js "9007199254740993") = 9007199254740992%float
  /\ Runtime.parseFloat (js "  -2.5e3abc") = (-2500)%float
  /\ Runtime.parseFloat (js "Infinity") = infinity
  /\ Runtime.parseFloat (js "-Infinity") = neg_infinity
  /\ Runtime.parseFloat (js "1e400") = infinity
  /\ Runtime.parseFloat (js "1e-400") = 0%float
  /\ Runtime.parseFloat (js "5e-324") = 0x1p-1074%float
  /\ Runtime.parseFloat (js "-0") = (-0)%float
  /\ Runtime.parseFloat (js "abc") = nan
  /\ Runtime.parseFloat [] = nan
  /\ Runtime.parseFloat (js ".") = nan.
Proof. repeat split; vm_compute; reflexivity. Qed.

(** Sums are rounded at every step, so their order matters. *)
Example runtime_sum_examples :
  Runtime.sum [0x1.999999999999ap-4; 0x1.999999999999ap-3]%float
  = 0x1.3333333333334p-2%float
  /\ (0x1.3333333333333p-2
      <? Runtime.sum [0x1.999999999999ap-4; 0x1.999999999999ap-3])%float
     = true
  /\ Runtime.sum [0x1p+1023; 0x1p+1023]%float = infinity
  /\ is_nan (infinity - infinity)%float = true.
Proof. repeat split; vm_compute; reflexivity. Qed.

(** ** Deal fetcher: the rows of a file *)

Lemma parseFloat_of_nothing :
  (0 <? Runtime.parseFloat [])%float = false
  /\ (0 <? Runtime.parseFloat (js "0"))%float = false.
Proof. split; vm_compute; reflexivity. Qed.

Lemma field_or_number fields i g :
  (0 <? Runtime.parseFloat (field_or fields i g (js "0")))%float = true ->
  exists f,
    fields !! i = Some f /\ field_or fields i g (js "0") = g f.
Proof.
  destruct parseFloat_of_nothing as [_ Hzero].
  unfold field_or. destruct (fields !! i) as [f|];
    [| rewrite Hzero; discriminate].
  unfold or_default. destruct (g f) eqn:Hg; simpl truthy; cbv iota;
    [rewrite Hzero; discriminate |].
  intros _. exists f. split; congruence.
Qed.

Lemma runtime_deal_of_line_spec date line deal :
  Runtime.deal_of_line date line = Some deal <->
  exists s c q p,
    Runtime.accepted_row (parseCSVLine line) s c q p
    /\ deal = {| Runtime.date := isoDate (Runtime.utc_day date);
                 Runtime.symbol := s; Runtime.clientName := c;
                 Runtime.dealType := js "BUY";
                 Runtime.quantity := q; Runtime.price := p;
                 Runtime.value := (q * p)%float |}.
Proof.
  unfold Runtime.deal_of_line. cbv zeta.
  set (fields := parseCSVLine line).
  assert (Htrim : forall i f, fields !! i = Some f -> trim f = f).
  { intros i f Hf. apply (parseCSVLine_trimmed line).
    apply list_elem_of_In, list_elem_of_lookup. eauto. }
  split.
  - destruct (decide (length fields < 8)%nat) as [|Hlen]; [discriminate |].
    destruct (_ && _) eqn:Hc; [| discriminate].
    repeat (apply andb_true_iff in Hc as [Hc ?]).
    destruct (field_or_truthy _ _ _ Hc) as (f1 & Hf1 & -> & Hn1).
    destruct (field_or_truthy _ _ _ H2) as (f2 & Hf2 & -> & Hn2).
    destruct (field_or_number _ _ _ H1) as (f4 & Hf4 & Hq).
    destruct (field_or_number _ _ _ H0) as (f5 & Hf5 & Hp).
    rewrite Hq in H1 |- *. rewrite Hp in H0 |- *.
    apply bool_decide_eq_true in H. rewrite H.
    intros [= <-].
    exists (trim f1), (trim f2), (Runtime.parseFloat (remove_char ","%char f4)),
      (Runtime.parseFloat (remove_char ","%char f5)).
    split; [| reflexivity].
    split; [lia |].
    split; [exists f1; auto |]. split; [exists f2; auto |].
    split; [| split; [exists f4; auto | exists f5; auto]].
    unfold field_or in H. destruct (fields !! 3%nat) as [f3|] eqn:Hf3;
      [| discriminate].
    exists f3. split; [reflexivity |].
    rewrite (Htrim _ _ Hf3) in H. unfold or_default in H.
    destruct (toUpperCase f3); [discriminate | exact H].
  - intros (s & c & q & p & Hacc & ->).
    destruct parseFloat_of_nothing as [Hnan _].
    destruct Hacc as (Hlen & (f1 & Hf1 & -> & Hn1) & (f2 & Hf2 & -> & Hn2)
                      & (f3 & Hf3 & Hbuy) & (f4 & Hf4 & -> & Hqpos)
                      & (f5 & Hf5 & -> & Hppos)).
    rewrite decide_False by lia.
    rewrite (field_or_some _ _ _ _ _ Hf1 Hn1).
    rewrite (field_or_some _ _ _ _ _ Hf2 Hn2).
    rewrite (field_or_some fields 3 _ [] f3 Hf3)
      by (rewrite (Htrim _ _ Hf3), Hbuy; discriminate).
    rewrite (Htrim _ _ Hf3), Hbuy.
    rewrite (field_or_some fields 4 _ _ f4 Hf4)
      by (intros Hnil; rewrite Hnil, Hnan in Hqpos; discriminate).
    rewrite (field_or_some fields 5 _ _ f5 Hf5)
      by (intros Hnil; rewrite Hnil, Hnan in Hppos; discriminate).
    rewrite Hqpos, Hppos.
    rewrite !(proj2 (truthy_true _)) by assumption.
    rewrite bool_decide_eq_true_2 by reflexivity. reflexivity.
Qed.

Lemma runtime_deals_of_lines_omap date lines :
  Runtime.deals_of_lines date lines
  = omap (Runtime.deal_of_line date) (drop 1 lines).
Proof.
  unfold Runtime.deals_of_lines.
  assert (H : forall rows acc,
            fold_left
              (fun deals line =>
                 match Runtime.deal_of_line date line with
                 | Some deal => deals ++ [deal]
                 | None => deals
                 end) rows acc
            = acc ++ omap (Runtime.deal_of_line date) rows).
  { induction rows as [|row rows IH]; intros acc; csimpl.
    - rewrite app_nil_r. reflexivity.
    - rewrite IH. destruct (Runtime.deal_of_line date row); [| reflexivity].
      rewrite <- app_assoc. reflexivity. }
  apply H.
Qed.

Lemma runtime_deals_of_text_omap date csvText :
  Runtime.deals_of_text date csvText
  = omap (Runtime.deal_of_line date) (drop 1 (non_blank_lines csvText)).
Proof.
  unfold Runtime.deals_of_text. cbv zeta. rewrite runtime_deals_of_lines_omap.
  destruct (decide _) as [Hlt|]; [| reflexivity].
  destruct (non_blank_lines csvText) as [|h [|r rest]]; simpl in *;
    [reflexivity | reflexivity | lia].
Qed.

Lemma runtime_downloadBhavCopy_open w date st :
  closed (controller st) = false ->
  Runtime.downloadBhavCopy w date st =
  ({| controller :=
        {| queue := queue (controller st)
                    ++ [Progress (fetching_message (Runtime.local_day date))];
           closed := false |};
      console := console st ++ (Runtime.fetched w date).2 |},
   Return (Runtime.fetched w date).1).
Proof.
  intros Hopen. unfold Runtime.downloadBhavCopy, Runtime.fetched. cbv zeta.
  unfold mbind, M_bind, bind, enqueue, try_catch, await, console_log,
    console_error, console_write, ret.
  rewrite Hopen.
  destruct (fetch w _) as [[isok [body|e]]|e]; simpl;
    try destruct isok; simpl; rewrite ?app_nil_r; try reflexivity.
Qed.



(** ** Aggregator *)

Lemma runtime_map_get_keyed {V} (f : list ascii -> V) keys s :
  Runtime.map_get (map (fun k => (k, f k)) keys) s
  = if decide (s ∈ keys) then Some (f s) else None.
Proof.
  induction keys as [|k keys IH]; [reflexivity |].
  cbn [map Runtime.map_get]. rewrite IH.
  destruct (decide (s ∈ keys)), (decide (s ∈ k :: keys)),
    (decide (k = s)) as [->|Hne]; try reflexivity; exfalso; set_solver.
Qed.

Lemma runtime_map_set_keyed {V} (f : list ascii -> V) keys s v :
  NoDup keys ->
  Runtime.map_set (map (fun k => (k, f k)) keys) s v
  = map (fun k => (k, if decide (k = s) then v else f k))
      (keys ++ if decide (s ∈ keys) then [] else [s]).
Proof.
  induction 1 as [|k keys Hk Hnd IH].
  - rewrite decide_False by set_solver. cbn.
    rewrite decide_True by reflexivity. reflexivity.
  - cbn [map Runtime.map_set app]. destruct (decide (k = s)) as [->|Hne].
    + rewrite decide_True by set_solver. rewrite app_nil_r. f_equal.
      apply map_ext_in. intros k Hin. apply list_elem_of_In in Hin.
      rewrite decide_False by (intros ->; contradiction). reflexivity.
    + rewrite IH. f_equal. f_equal.
      destruct (decide (s ∈ keys)), (decide (s ∈ k :: keys));
        try reflexivity; exfalso; set_solver.
Qed.

Lemma runtime_totals_of_snoc deals deal s :
  Runtime.totals_of (deals ++ [deal]) s
  = if decide (Runtime.symbol deal = s) then
      {| Runtime.sumQuantity :=
           (Runtime.sumQuantity (Runtime.totals_of deals s)
            + Runtime.quantity deal)%float;
         Runtime.sumValue :=
           (Runtime.sumValue (Runtime.totals_of deals s)
            + Runtime.value deal)%float;
         Runtime.count := (Runtime.count (Runtime.totals_of deals s) + 1)%nat |}
    else Runtime.totals_of deals s.
Proof.
  unfold Runtime.totals_of, Runtime.sum. cbv zeta.
  rewrite filter_app, filter_cons, filter_nil.
  destruct (decide (Runtime.symbol deal = s)) as [Hs|Hs].
  - rewrite !map_app, !fold_left_app, length_app. reflexivity.
  - rewrite app_nil_r. reflexivity.
Qed.

Lemma runtime_totals_of_absent deals s :
  s ∉ map Runtime.symbol deals ->
  Runtime.totals_of deals s
  = {| Runtime.sumQuantity := 0; Runtime.sumValue := 0; Runtime.count := 0 |}.
Proof.
  intros Hs. unfold Runtime.totals_of. cbv zeta.
  replace (filter (fun deal => Runtime.symbol deal = s) deals)
    with (@nil Runtime.Deal); [reflexivity |].
  symmetry. induction deals as [|d deals IH]; [reflexivity |].
  rewrite filter_cons. simpl in Hs. apply not_elem_of_cons in Hs as [Hd Hs].
  rewrite decide_False by congruence. apply IH, Hs.
Qed.

Lemma runtime_stock_map_spec deals :
  fold_left Runtime.accumulate deals []
  = map (fun s => (s, Runtime.totals_of deals s))
      (first_seen [] (map Runtime.symbol deals)).
Proof.
  induction deals as [|deal deals IH] using rev_ind; [reflexivity |].
  rewrite fold_left_app. cbn [fold_left]. rewrite IH. unfold Runtime.accumulate.
  rewrite runtime_map_get_keyed, runtime_map_set_keyed
    by apply first_seen_NoDup.
  rewrite (map_app Runtime.symbol deals [deal]). cbn [map].
  rewrite first_seen_snoc. cbn [app].
  assert (Hex : default
                  {| Runtime.sumQuantity := 0; Runtime.sumValue := 0;
                     Runtime.count := 0 |}
                  (if decide (Runtime.symbol deal
                              ∈ first_seen [] (map Runtime.symbol deals))
                   then Some (Runtime.totals_of deals (Runtime.symbol deal))
                   else None)
                = Runtime.totals_of deals (Runtime.symbol deal)).
  { destruct (decide _) as [Hin|Hout]; [reflexivity |].
    simpl. symmetry. apply runtime_totals_of_absent.
    rewrite first_seen_elem in Hout. set_solver. }
  rewrite Hex.
  assert (Hkeys : (if decide (Runtime.symbol deal
                              ∈ first_seen [] (map Runtime.symbol deals))
                   then [] else [Runtime.symbol deal])
                  = (if decide (Runtime.symbol deal ∈ map Runtime.symbol deals)
                     then [] else [Runtime.symbol deal])).
  { destruct (decide (Runtime.symbol deal
                      ∈ first_seen [] (map Runtime.symbol deals))) as [H1|H1],
      (decide (Runtime.symbol deal ∈ map Runtime.symbol deals)) as [H2|H2];
      try reflexivity; rewrite first_seen_elem in H1; exfalso; set_solver. }
  rewrite Hkeys. apply map_ext. intros k.
  rewrite runtime_totals_of_snoc.
  destruct (decide (k = Runtime.symbol deal)) as [->|Hne].
  - rewrite decide_True by reflexivity. reflexivity.
  - rewrite decide_False by congruence. reflexivity.
Qed.



Lemma runtime_sort_insert_Permutation x l :
  Permutation (Runtime.sort_insert Runtime.compareFn x l) (x :: l).
Proof.
  induction l as [|y l IH]; simpl; [reflexivity |].
  destruct (0 <? _)%float; [| reflexivity].
  rewrite IH. apply perm_swap.
Qed.

Lemma runtime_sort_Permutation l :
  Permutation (Runtime.sort Runtime.compareFn l) l.
Proof.
  induction l as [|x l IH]; simpl; [reflexivity |].
  rewrite runtime_sort_insert_Permutation, IH. reflexivity.
Qed.








(** A sum of numbers that are not negative is not negative; in particular
    it is not [NaN]. *)
Lemma runtime_sum_nonnegative l :
  Forall (fun x => (0 <=? x)%float = true) l ->
  (0 <=? Runtime.sum l)%float = true.
Proof.
  unfold Runtime.sum.
  assert (H : forall a, (0 <=? a)%float = true ->
            Forall (fun x => (0 <=? x)%float = true) l ->
            (0 <=? fold_left add l a)%float = true).
  { induction l as [|x l IH]; intros a Ha Hl; [exact Ha |].
    apply Forall_cons in Hl as [Hx Hl]. cbn [fold_left].
    apply IH; [apply add_nonnegative; assumption | exact Hl]. }
  apply H. reflexivity.
Qed.





(** The ranking follows the rounded sums: one deal of value 0.3 ranks
    below two deals of 0.1 and 0.2, whose sum is the next number above
    0.3. *)
Example runtime_ranking_example :
  map Runtime.acc_symbol
    (Runtime.analyzeAccumulation
       [ Runtime.example_deal "B" "ABC BANK LTD" 1 0x1.3333333333333p-2;
         Runtime.example_deal "A" "ABC BANK LTD" 1 0x1.999999999999ap-4;
         Runtime.example_deal "A" "ABC BANK LTD" 1 0x1.999999999999ap-3 ])
  = [js "A"; js "B"].
Proof. vm_compute. reflexivity. Qed.

(** ** What the fetcher returns and what the aggregator makes of it *)

Lemma runtime_deal_of_line_fetched day line deal :
  Runtime.deal_of_line day line = Some deal -> Runtime.fetched_deal day deal.
Proof.
  intros H. apply runtime_deal_of_line_spec in H.
  destruct H as (s & c & q & p & Hacc & ->).
  destruct Hacc as (_ & (f1 & _ & -> & Hn1) & (f2 & _ & -> & Hn2) & _
                    & (f4 & _ & _ & Hq) & (f5 & _ & _ & Hp)).
  split; cbn;
    [ reflexivity | reflexivity
    | split; [exact Hn1 | apply trim_idemp]
    | split; [exact Hn2 | apply trim_idemp]
    | exact Hq | exact Hp
    | split; [reflexivity | apply mul_nonnegative; assumption] ].
Qed.

Lemma runtime_deals_of_text_fetched day csvText :
  Forall (Runtime.fetched_deal day) (Runtime.deals_of_text day csvText).
Proof.
  rewrite runtime_deals_of_text_omap. apply Forall_forall. intros deal Hin.
  apply list_elem_of_omap in Hin as (line & _ & Hline).
  eapply runtime_deal_of_line_fetched, Hline.
Qed.

(** X7. Every deal that [downloadBhavCopy] returns is a BUY deal dated
    with the UTC day of the date asked for, with a non-empty trimmed
    symbol and client name, a quantity and a price that are strictly
    positive numbers, and their binary64 product as value, which is not
    negative (and so not [NaN]; it may be zero or [Infinity]); there is at
    most one deal for each non-blank line after the header. *)
Theorem downloadBhavCopy_returns_valid_deals
    (w : World) (day : Runtime.Instant) (st st' : State)
    (deals : list Runtime.Deal) :
  Runtime.downloadBhavCopy w day st = (st', Return deals) ->
  Forall (Runtime.fetched_deal day) deals
  /\ (deals = []
      \/ exists response csvText,
           fetch w (archive_url (formatDateForNSE (Runtime.local_day day)))
           = Return response
           /\ ok response = true /\ text response = Return csvText
           /\ (length deals < length (non_blank_lines csvText))%nat).
Proof.
  intros Hrun.
  destruct (closed (controller st)) eqn:Hclosed.
  { unfold Runtime.downloadBhavCopy, mbind, M_bind, bind, enqueue in Hrun.
    rewrite Hclosed in Hrun. discriminate. }
  rewrite runtime_downloadBhavCopy_open in Hrun by exact Hclosed.
  injection Hrun as _ <-. unfold Runtime.fetched.
  destruct (fetch w _) as [[isok [csvText|e]]|e] eqn:Hfetch; cbn;
    try destruct isok; cbn; try (split; [constructor | left; reflexivity]).
  split; [apply runtime_deals_of_text_fetched |].
  destruct (Runtime.deals_of_text day csvText) as [|d ds] eqn:Hd;
    [left; reflexivity | right].
  exists {| ok := true; text := Return csvText |}, csvText.
  repeat split. rewrite <- Hd. pose proof Hd as Hd'.
  unfold Runtime.deals_of_text in Hd' |- *. cbv zeta in Hd' |- *.
  destruct (decide _) as [Hlt|Hge]; [rewrite Hd' in *; discriminate |].
  rewrite runtime_deals_of_lines_omap.
  pose proof (length_omap_le (Runtime.deal_of_line day)
                (drop 1 (non_blank_lines csvText))) as Hle.
  rewrite length_drop in Hle. lia.
Qed.

Lemma downloadBhavCopy_returns_valid_deals_witness :
  exists st' deals,
    Runtime.downloadBhavCopy (two_day_world 10)
      {| Runtime.local_day := 20756; Runtime.utc_day := 20755 |} new_stream
    = (st', Return deals)
    /\ Forall
         (Runtime.fetched_deal
            {| Runtime.local_day := 20756; Runtime.utc_day := 20755 |}) deals
    /\ map Runtime.date deals
       = [js "2026-10-29"; js "2026-10-29"; js "2026-10-29"].
Proof.
  destruct (Runtime.downloadBhavCopy (two_day_world 10)
              {| Runtime.local_day := 20756; Runtime.utc_day := 20755 |}
              new_stream)
    as [st' [deals|e]] eqn:Hrun; [| vm_compute in Hrun; discriminate].
  exists st', deals. split; [reflexivity |].
  split; [apply (downloadBhavCopy_returns_valid_deals _ _ _ _ _ Hrun) |].
  vm_compute in Hrun. injection Hrun as _ <-. reflexivity.
Defined.

Lemma runtime_analyzeAccumulation_entry allDeals a :
  a ∈ Runtime.analyzeAccumulation allDeals ->
  exists deal,
    deal ∈ allDeals /\ Runtime.qualifies deal = true
    /\ a = Runtime.accumulation
             (filter (fun d => Runtime.qualifies d = true) allDeals)
             (Runtime.symbol deal).
Proof.
  unfold Runtime.analyzeAccumulation. cbv zeta. intros Ha.
  apply subseteq_take in Ha. rewrite runtime_sort_Permutation in Ha.
  rewrite runtime_stock_map_spec, map_map in Ha.
  apply list_elem_of_fmap in Ha as (s & -> & Hs).
  apply first_seen_elem in Hs as [Hs _].
  apply list_elem_of_fmap in Hs as (deal & -> & Hdeal).
  apply list_elem_of_filter in Hdeal as [Hq Hin].
  exists deal. split; [exact Hin |]. split; [exact Hq | reflexivity].
Qed.

Lemma runtime_sum_positive l :
  l <> [] -> Forall (fun x => (0 <? x)%float = true) l ->
  (0 <? Runtime.sum l)%float = true.
Proof.
  unfold Runtime.sum. intros Hne Hl.
  destruct Hl as [|x l Hx Hl]; [congruence |]. clear Hne. cbn [fold_left].
  assert (H : forall a, (0 <? a)%float = true ->
            (0 <? fold_left add l a)%float = true).
  { clear x Hx. induction Hl as [|y l Hy Hl IH]; intros a Ha; [exact Ha |].
    cbn [fold_left]. apply IH. apply add_positive; [apply ltb_leb, Ha | exact Hy]. }
  apply H. apply add_positive; [reflexivity | exact Hx].
Qed.

(** X15. With deals as the fetcher builds them (non-empty symbol, strictly
    positive quantity, value not negative) every entry of the result has a
    non-empty symbol, at least one transaction, a strictly positive total
    quantity and a total value that is not negative; neither total is
    [NaN].  The average price is their quotient: the division is never by
    zero, and its result is not negative, or is [NaN] when both totals
    have overflowed to [Infinity]. *)
Theorem analyzeAccumulation_entries_valid (allDeals : list Runtime.Deal) :
  Forall
    (fun deal =>
       Runtime.qualifies deal = true ->
       Runtime.symbol deal <> []
       /\ (0 <? Runtime.quantity deal)%float = true
       /\ (0 <=? Runtime.value deal)%float = true) allDeals ->
  Forall
    (fun entry =>
       Runtime.acc_symbol entry <> []
       /\ (1 <= Runtime.transactions entry)%nat
       /\ (0 <? Runtime.totalBuyQuantity entry)%float = true
       /\ (0 <=? Runtime.totalBuyValue entry)%float = true
       /\ Runtime.avgPrice entry
          = (Runtime.totalBuyValue entry / Runtime.totalBuyQuantity entry)%float
       /\ ((0 <=? Runtime.avgPrice entry)%float = true
           \/ (Runtime.totalBuyValue entry = infinity
               /\ Runtime.totalBuyQuantity entry = infinity)))
    (Runtime.analyzeAccumulation allDeals).
Proof.
  intros Hall. rewrite Forall_forall in Hall.
  apply Forall_forall. intros entry Hentry.
  apply runtime_analyzeAccumulation_entry in Hentry
    as (deal & Hin & Hq & ->).
  set (qualifying := filter (fun d => Runtime.qualifies d = true) allDeals).
  set (group := filter (fun d => Runtime.symbol d = Runtime.symbol deal)
                  qualifying).
  assert (Hdeal : deal ∈ group).
  { apply list_elem_of_filter. split; [reflexivity |].
    apply list_elem_of_filter. split; assumption. }
  assert (Hgroup : forall d, d ∈ group ->
            (0 <? Runtime.quantity d)%float = true
            /\ (0 <=? Runtime.value d)%float = true).
  { intros d Hd. apply list_elem_of_filter in Hd as [_ Hd].
    apply list_elem_of_filter in Hd as [Hdq Hd].
    destruct (Hall d Hd Hdq) as (_ & H1 & H2). split; assumption. }
  assert (Hquantity : (0 <? Runtime.sum (map Runtime.quantity group))%float
                      = true).
  { apply runtime_sum_positive.
    - destruct group; [apply elem_of_nil in Hdeal; contradiction | discriminate].
    - apply Forall_map, Forall_forall. intros d Hd. apply (Hgroup d Hd). }
  assert (Hvalue : (0 <=? Runtime.sum (map Runtime.value group))%float = true).
  { apply runtime_sum_nonnegative, Forall_map, Forall_forall.
    intros d Hd. apply (Hgroup d Hd). }
  unfold Runtime.accumulation. cbv zeta. fold qualifying. fold group.
  cbn [Runtime.acc_symbol Runtime.transactions Runtime.totalBuyQuantity
       Runtime.totalBuyValue Runtime.avgPrice].
  split; [apply (Hall deal Hin Hq) |].
  split.
  { destruct group; [apply elem_of_nil in Hdeal; contradiction | simpl; lia]. }
  split; [exact Hquantity |]. split; [exact Hvalue |].
  split; [reflexivity |]. apply div_nonnegative; assumption.
Qed.

Lemma analyzeAccumulation_entries_valid_witness :
  Forall
    (fun entry =>
       Runtime.acc_symbol entry <> []
       /\ (1 <= Runtime.transactions entry)%nat
       /\ (0 <? Runtime.totalBuyQuantity entry)%float = true
       /\ (0 <=? Runtime.totalBuyValue entry)%float = true
       /\ Runtime.avgPrice entry
          = (Runtime.totalBuyValue entry / Runtime.totalBuyQuantity entry)%float
       /\ ((0 <=? Runtime.avgPrice entry)%float = true
           \/ (Runtime.totalBuyValue entry = infinity
               /\ Runtime.totalBuyQuantity entry = infinity)))
    (Runtime.analyzeAccumulation Runtime.tcs_deals).
Proof.
  apply analyzeAccumulation_entries_valid.
  repeat (constructor;
          [intros _; split; [discriminate | split; reflexivity] |]).
  constructor.
Defined.
